(** * Tournament network analysis: a shallow embedding of [app.py]

    The script loads two GraphML files with networkx, derives a table of
    centralities with pandas, and shows structural metrics, top-K
    rankings and a styled pyvis network through Streamlit.

    Conventions of the embedding.
    - Python floats are modelled by exact rationals ([Q]); NaN and
      rounding are outside the model.  Equality of scores is [Qeq].
    - A Python exception is a value of [exn]; a computation that may
      raise returns [Result A].
    - What the script shows on the page is a list of [widget]s, in the
      order the Streamlit calls are made.  An uncaught exception ends
      the run and leaves the widgets emitted so far.
    - One run of the script is modelled: [@st.cache_data] only spares
      later runs the recomputation.  Titles, headers and explanatory
      text are not recorded; the slider and the checkbox of the sidebar
      are the parameters [k_slider] and [physics_enabled].
    - Calls into networkx whose value is a numerical matter (clustering,
      assortativity, closeness, betweenness, eigenvector, component
      counts) are fields of [nx_lib]; the calls whose behaviour the
      script's structure depends on ([nx.Graph], [nx.density],
      [nx.degree_centrality], [nx.diameter], [DataFrame.nlargest]) are
      written out after the libraries' documented semantics. *)

From Stdlib Require Import List String Ascii Bool Arith ZArith QArith Lia.
From Stdlib Require Import Permutation Sorted.
From Stdlib Require Import Lqa.
Import ListNotations.

Local Open Scope string_scope.
Local Open Scope list_scope.

(* ================================================================= *)
(** ** Exceptions and results *)

Inductive exn : Type :=
| FileNotFoundError
| KeyError (key : string)
| ZeroDivisionError
| ValueError (msg : string)
| IndexError
| AssertionError
| NetworkXError (msg : string)
| LibraryError (msg : string).

Definition Result (A : Type) : Type := (exn + A)%type.

Definition ok {A} (a : A) : Result A := inr a.
Definition raise {A} (e : exn) : Result A := inl e.

Definition rbind {A B} (r : Result A) (k : A -> Result B) : Result B :=
  match r with
  | inl e => inl e
  | inr a => k a
  end.

Fixpoint mapM {A B} (f : A -> Result B) (l : list A) : Result (list B) :=
  match l with
  | [] => ok []
  | x :: r =>
      rbind (f x) (fun y => rbind (mapM f r) (fun ys => ok (y :: ys)))
  end.

(* ================================================================= *)
(** ** Python dictionaries with string keys

    Insertion ordered; assigning to an existing key keeps its position
    and replaces the value. *)

Definition dict (V : Type) : Type := list (string * V).

Fixpoint dict_get {V} (d : dict V) (k : string) : option V :=
  match d with
  | [] => None
  | (k', v) :: r => if String.eqb k k' then Some v else dict_get r k
  end.

Fixpoint dict_set {V} (d : dict V) (k : string) (v : V) : dict V :=
  match d with
  | [] => [(k, v)]
  | (k', v') :: r =>
      if String.eqb k k' then (k', v) :: r else (k', v') :: dict_set r k v
  end.

Definition dict_keys {V} (d : dict V) : list string := map fst d.
Definition dict_values {V} (d : dict V) : list V := map snd d.

Definition dict_mem {V} (d : dict V) (k : string) : bool :=
  match dict_get d k with Some _ => true | None => false end.

(** [d.get(k, default)] *)
Definition dict_get_default {V} (d : dict V) (k : string) (default : V) : V :=
  match dict_get d k with Some v => v | None => default end.

(** [dict(zip(keys, values))] and [dict(pairs)] *)
Definition dict_of_pairs {V} (l : list (string * V)) : dict V :=
  fold_left (fun d kv => dict_set d (fst kv) (snd kv)) l [].

Definition mem_string (x : string) (l : list string) : bool :=
  existsb (String.eqb x) l.

(* ================================================================= *)
(** ** Graphs

    [read_graphml] yields a [DiGraph], or a [MultiDiGraph] when the
    file repeats an edge; both are a node dictionary and the edges in
    file order, parallel edges kept (edge elements are taken to carry
    no [id], or distinct ones).  The script needs a directed file:
    the component counts are not defined for undirected graphs. *)

Record node_attrs : Type := { community : option Z }.

Record edge : Type := { src : string; dst : string; weight : Q }.

Record DiGraph : Type := {
  nodes : dict node_attrs;
  edges : list edge
}.

Definition empty_graph : DiGraph := {| nodes := []; edges := [] |}.

(** [G.add_node(n, **attrs)]: a new node is appended, an existing one
    has its attributes updated. *)
Definition add_node (G : DiGraph) (n : string) (a : node_attrs) : DiGraph :=
  match dict_get (nodes G) n with
  | None => {| nodes := nodes G ++ [(n, a)]; edges := edges G |}
  | Some old =>
      let merged :=
        {| community := match community a with
                        | Some c => Some c
                        | None => community old
                        end |} in
      {| nodes := dict_set (nodes G) n merged; edges := edges G |}
  end.

(** [G.add_edge(u, v, weight=w)]: endpoints not yet in the graph are
    added without attributes. *)
Definition ensure_node (ns : dict node_attrs) (n : string) : dict node_attrs :=
  if dict_mem ns n then ns else ns ++ [(n, {| community := None |})].

Definition add_edge (G : DiGraph) (e : edge) : DiGraph :=
  {| nodes := ensure_node (ensure_node (nodes G) (src e)) (dst e);
     edges := edges G ++ [e] |}.

(** The content of a GraphML file: node elements, then edge elements. *)
Record graphml : Type := {
  doc_nodes : list (string * node_attrs);
  doc_edges : list edge
}.

Definition make_graph (doc : graphml) : DiGraph :=
  fold_left add_edge (doc_edges doc)
    (fold_left (fun G na => add_node G (fst na) (snd na)) (doc_nodes doc)
       empty_graph).

(** A file system maps a path to the document stored there, if any. *)
Definition filesystem : Type := string -> option graphml.

Definition read_graphml (fs : filesystem) (path : string) : Result DiGraph :=
  match fs path with
  | None => raise FileNotFoundError
  | Some doc => ok (make_graph doc)
  end.

Definition node_list (G : DiGraph) : list string := dict_keys (nodes G).
Definition number_of_nodes (G : DiGraph) : nat := List.length (nodes G).
Definition number_of_edges (G : DiGraph) : nat := List.length (edges G).

(** [bool(G)] is [len(G) > 0]. *)
Definition truthy (G : DiGraph) : bool :=
  match nodes G with [] => false | _ => true end.

(** [nx.density] of a directed graph: [m / (n * (n - 1))], and [0]
    when there is no edge or at most one node. *)
Definition Qnat (n : nat) : Q := inject_Z (Z.of_nat n).

Definition density (G : DiGraph) : Q :=
  let n := number_of_nodes G in
  let m := number_of_edges G in
  if (m =? 0)%nat || (n <=? 1)%nat then 0
  else Qnat m / Qnat (n * (n - 1)).

(* ================================================================= *)
(** ** The simple undirected graph [nx.Graph(G)]

    Same nodes in the same order.  The edges are added one by one in
    the order [G.adj] gives them: source node by source node and, for
    each, successor by successor in the order they were first met.
    Adding [u -> v] enters [v] among the neighbours of [u] and [u] among
    those of [v]; an entry that is already there keeps its place and
    takes the weight of the edge added last.  A self-loop makes a node
    its own neighbour. *)

Record Graph : Type := {
  g_nodes : dict node_attrs;
  g_adj : dict (dict Q)
}.

Definition incident (u : string) (e : edge) : list (string * Q) :=
  if String.eqb (src e) u then [(dst e, weight e)]
  else if String.eqb (dst e) u then [(src e, weight e)]
  else [].

Definition adjacency (es : list edge) (u : string) : dict Q :=
  dict_of_pairs (flat_map (incident u) es).

(** The edges in the order of [G.adj]; parallel edges stay in file
    order. *)
Definition edges_by_source (G : DiGraph) : list edge :=
  flat_map (fun u =>
    let out := filter (fun e => String.eqb (src e) u) (edges G) in
    let succs := dict_keys (dict_of_pairs (map (fun e => (dst e, tt)) out)) in
    flat_map (fun v => filter (fun e => String.eqb (dst e) v) out) succs)
    (node_list G).

Definition nx_Graph (G : DiGraph) : Graph :=
  {| g_nodes := nodes G;
     g_adj := map (fun u => (u, adjacency (edges_by_source G) u))
                  (node_list G) |}.

Definition g_node_list (G : Graph) : list string := dict_keys (g_nodes G).
Definition order (G : Graph) : nat := List.length (g_nodes G).

Definition neighbors (G : Graph) (u : string) : list string :=
  match dict_get (g_adj G) u with
  | Some nbrs => dict_keys nbrs
  | None => []
  end.

(** [G.degree(n)] is [len(nbrs) + (n in nbrs)]: a self-loop counts twice. *)
Definition degree (G : Graph) (n : string) : nat :=
  let nbrs := neighbors G n in
  List.length nbrs + (if mem_string n nbrs then 1 else 0).

(** [nx.degree_centrality]:
    [[
      if len(G) <= 1: return {n: 1 for n in G}
      s = 1.0 / (len(G) - 1.0)
      return {n: d * s for n, d in G.degree()}
    ]] *)
Definition degree_centrality (G : Graph) : dict Q :=
  if (order G <=? 1)%nat then map (fun n => (n, 1)) (g_node_list G)
  else
    let s := 1 / (Qnat (order G) - 1) in
    map (fun n => (n, Qnat (degree G n) * s)) (g_node_list G).

(* ----------------------------------------------------------------- *)
(** *** Shortest path lengths and the diameter

    [nx.single_source_shortest_path_length] is a breadth-first search by
    levels: every neighbour of the current level that has not been seen
    is marked and put on the next level. *)

Fixpoint visit (ws seen next : list string) : list string * list string :=
  match ws with
  | [] => (seen, next)
  | w :: ws' =>
      if mem_string w seen then visit ws' seen next
      else visit ws' (w :: seen) (next ++ [w])
  end.

Fixpoint scan_level (G : Graph) (thislevel seen next : list string)
  : list string * list string :=
  match thislevel with
  | [] => (seen, next)
  | v :: r =>
      let '(seen', next') := visit (neighbors G v) seen next in
      scan_level G r seen' next'
  end.

(** The loop runs at most once per node: a level that finds nothing new
    ends it. *)
Fixpoint bfs (G : Graph) (fuel level : nat) (thislevel seen : list string)
    (found : dict nat) : dict nat :=
  match fuel with
  | O => found
  | S fuel' =>
      match thislevel with
      | [] => found
      | _ =>
          let '(seen', next) := scan_level G thislevel seen [] in
          bfs G fuel' (S level) next seen'
            (found ++ map (fun w => (w, S level)) next)
      end
  end.

Definition single_source_shortest_path_length (G : Graph) (s : string)
  : dict nat :=
  bfs G (order G) 0 [s] [s] [(s, 0%nat)].

Definition list_max (l : list nat) : nat := fold_right Nat.max 0%nat l.

Definition not_connected_msg : string :=
  "Found infinite path length because the graph is not connected".

(** [nx.eccentricity]: a node that does not reach the whole graph makes
    the computation raise. *)
Definition eccentricity_of (G : Graph) (n : string) : Result nat :=
  let len := single_source_shortest_path_length G n in
  if (List.length len =? order G)%nat then ok (list_max (dict_values len))
  else raise (NetworkXError not_connected_msg).

Definition eccentricity (G : Graph) : Result (list nat) :=
  mapM (eccentricity_of G) (g_node_list G).

(** [nx.diameter(G)] is [max(eccentricity(G).values())]; [max] of an
    empty sequence raises [ValueError]. *)
Definition diameter (G : Graph) : Result nat :=
  rbind (eccentricity G) (fun e =>
    match e with
    | [] => raise (ValueError "max() arg is an empty sequence")
    | _ => ok (list_max e)
    end).

(** Reachability in the undirected graph, independently of the search. *)
Inductive reach (G : Graph) (s : string) : string -> Prop :=
| reach_refl : reach G s s
| reach_step : forall v w,
    reach G s v -> In w (neighbors G v) -> reach G s w.

Definition connected (G : Graph) : Prop :=
  forall u v, In u (g_node_list G) -> In v (g_node_list G) -> reach G u v.

(* ================================================================= *)
(** ** pandas: the centrality table and [nlargest] *)

Record DataFrame : Type := {
  Jogador : list string;
  Degree : list Q;
  Closeness : list Q;
  Betweenness : list Q;
  Eigenvector : list Q
}.

(** [pd.DataFrame({...})] from a dictionary of lists: the lists must
    have one length. *)
Definition pd_DataFrame (j : list string) (d c b e : list Q)
  : Result DataFrame :=
  let n := List.length j in
  if (List.length d =? n)%nat && (List.length c =? n)%nat
     && (List.length b =? n)%nat && (List.length e =? n)%nat
  then ok {| Jogador := j; Degree := d; Closeness := c;
             Betweenness := b; Eigenvector := e |}
  else raise (ValueError "All arrays must be of the same length").

Definition row_count (df : DataFrame) : nat := List.length (Jogador df).

Inductive metric : Type := ByDegree | ByCloseness | ByBetweenness | ByEigenvector.

Definition column (df : DataFrame) (m : metric) : list Q :=
  match m with
  | ByDegree => Degree df
  | ByCloseness => Closeness df
  | ByBetweenness => Betweenness df
  | ByEigenvector => Eigenvector df
  end.

Definition column_name (m : metric) : string :=
  match m with
  | ByDegree => "Degree"
  | ByCloseness => "Closeness"
  | ByBetweenness => "Betweenness"
  | ByEigenvector => "Eigenvector"
  end.

(** [df[['Jogador', col]]] *)
Definition select (df : DataFrame) (m : metric) : list (string * Q) :=
  combine (Jogador df) (column df m).

Definition Qlt_bool (a b : Q) : bool := negb (Qle_bool b a).

(** [nlargest(n, col)] with the default [keep='first'] is documented as
    [sort_values(col, ascending=False).head(n)], rows of equal value in
    their order of appearance.  The sort is written as an insertion
    sort: a row goes after the rows that are strictly larger. *)
Fixpoint insert_desc (x : string * Q) (l : list (string * Q))
  : list (string * Q) :=
  match l with
  | [] => [x]
  | y :: r =>
      if Qlt_bool (snd x) (snd y) then y :: insert_desc x r else x :: y :: r
  end.

Definition sort_values_desc (rows : list (string * Q)) : list (string * Q) :=
  fold_right insert_desc [] rows.

Definition nlargest (n : nat) (rows : list (string * Q)) : list (string * Q) :=
  firstn n (sort_values_desc rows).

Definition top_k (df : DataFrame) (m : metric) (k : nat) : list (string * Q) :=
  nlargest k (select df m).

(* ================================================================= *)
(** ** networkx calls kept abstract

    A value of [nx_lib] is the library as it answers during one run of
    the script; two runs may meet different answers of the iterative
    eigenvector solver. *)

Record nx_lib : Type := {
  average_clustering : Graph -> Result Q;
  degree_assortativity_coefficient : Graph -> Result Q;
  closeness_centrality : Graph -> Result (dict Q);
  betweenness_centrality : Graph -> Result (dict Q);
  eigenvector_centrality_numpy : Graph -> Result (dict Q);
  number_weakly_connected_components : DiGraph -> nat;
  number_strongly_connected_components : DiGraph -> nat
}.

(* ================================================================= *)
(** ** The page *)

Record hover : Type := {
  hover_node : string;
  hover_community : Z;
  hover_eigenvector : Q
}.

Record net_node : Type := {
  n_id : string;
  label : string;
  title : hover;
  color : string;
  size : Q
}.

Record Network : Type := {
  physics : bool;
  net_nodes : list net_node;
  net_edges : list (string * string)
}.

Inductive shown : Type :=
| Count (n : nat)
| Number (q : Q).

Inductive widget : Type :=
| st_error (msg : string)
| st_warning (msg : string)
| st_metric (name : string) (value : shown)
| st_dataframe (m : metric) (rows : list (string * Q))
| components_html (net : Network).

(** A run of the script: the widgets so far are threaded through, and
    the run ends with a value or with an uncaught exception. *)
Definition App (A : Type) : Type := list widget -> list widget * Result A.

Definition ret {A} (a : A) : App A := fun ws => (ws, ok a).
Definition throw {A} (e : exn) : App A := fun ws => (ws, raise e).

Definition bind {A B} (m : App A) (k : A -> App B) : App B :=
  fun ws =>
    match m ws with
    | (ws', inl e) => (ws', inl e)
    | (ws', inr a) => k a ws'
    end.

Definition emit (w : widget) : App unit := fun ws => (ws ++ [w], ok tt).

Definition lift {A} (r : Result A) : App A :=
  match r with
  | inl e => throw e
  | inr a => ret a
  end.

Declare Scope app_scope.
Delimit Scope app_scope with app.
Notation "x <- m ;; k" := (bind m (fun x => k))
  (at level 61, m at next level, right associativity) : app_scope.
Notation "m ;;; k" := (bind m (fun _ => k))
  (at level 61, right associativity) : app_scope.

Definition run {A} (m : App A) : list widget * Result A := m [].

Local Open Scope app_scope.

(* ----------------------------------------------------------------- *)
(** *** Loading ([carregar_e_processar_dados]) *)

Definition rede_completa : string := "rede_completa.graphml".
Definition rede_visualizacao : string := "rede_visualizacao.graphml".

Definition not_found_msg : string :=
  "Arquivos .graphml não encontrados! Certifique-se de que 'rede_completa.graphml' e 'rede_visualizacao.graphml' estão na mesma pasta do seu app.py.".

(** The table is built column by column, in the order of the dictionary
    literal; the first call that raises ends the function. *)
Definition compute_centralities (lib : nx_lib) (g_completo : DiGraph)
  : Result DataFrame :=
  let g_undir_simples := nx_Graph g_completo in
  let jogador := g_node_list g_undir_simples in
  let degree_col := dict_values (degree_centrality g_undir_simples) in
  rbind (closeness_centrality lib g_undir_simples) (fun clo =>
  rbind (betweenness_centrality lib g_undir_simples) (fun btw =>
  rbind (eigenvector_centrality_numpy lib g_undir_simples) (fun eig =>
  pd_DataFrame jogador degree_col (dict_values clo) (dict_values btw)
    (dict_values eig)))).

Definition loaded : Type :=
  (option DiGraph * option DiGraph * option DataFrame)%type.

Definition carregar_e_processar_dados (lib : nx_lib) (fs : filesystem)
  : App loaded :=
  match
    rbind (read_graphml fs rede_completa) (fun g_completo =>
    rbind (read_graphml fs rede_visualizacao) (fun g_visualizacao =>
    ok (g_completo, g_visualizacao)))
  with
  | inl FileNotFoundError =>
      emit (st_error not_found_msg) ;;;
      ret (None, None, None)
  | inl e => throw e
  | inr (g_completo, g_visualizacao) =>
      centrality_df <- lift (compute_centralities lib g_completo) ;;
      ret (Some g_completo, Some g_visualizacao, Some centrality_df)
  end.

(* ----------------------------------------------------------------- *)
(** *** Structural metrics tab *)

Definition tab_metricas (lib : nx_lib) (G_completo : DiGraph) : App unit :=
  let g_undir_simples := nx_Graph G_completo in
  emit (st_metric "Total de Jogadores (Nós)"
          (Count (number_of_nodes G_completo))) ;;;
  emit (st_metric "Total de Partidas (Arestas)"
          (Count (number_of_edges G_completo))) ;;;
  emit (st_metric "Densidade da Rede" (Number (density G_completo))) ;;;
  clustering <- lift (average_clustering lib g_undir_simples) ;;
  emit (st_metric "Coef. de Clustering Global" (Number clustering)) ;;;
  assortativity <- lift (degree_assortativity_coefficient lib g_undir_simples) ;;
  emit (st_metric "Assortatividade de Grau" (Number assortativity)) ;;;
  diam <- lift (diameter g_undir_simples) ;;
  emit (st_metric "Diâmetro da Rede" (Count diam)) ;;;
  emit (st_metric "Componentes Fracamente Conectados"
          (Count (number_weakly_connected_components lib G_completo))) ;;;
  emit (st_metric "Componentes Fortemente Conectados"
          (Count (number_strongly_connected_components lib G_completo))).

(* ----------------------------------------------------------------- *)
(** *** Rankings tab *)

Definition tab_centralidade (centrality_df : DataFrame) (k_slider : nat)
  : App unit :=
  emit (st_dataframe ByDegree (top_k centrality_df ByDegree k_slider)) ;;;
  emit (st_dataframe ByBetweenness
          (top_k centrality_df ByBetweenness k_slider)) ;;;
  emit (st_dataframe ByEigenvector
          (top_k centrality_df ByEigenvector k_slider)) ;;;
  emit (st_dataframe ByCloseness (top_k centrality_df ByCloseness k_slider)).

(* ----------------------------------------------------------------- *)
(** *** Network tab *)

Definition palette : list string :=
  ["#e6194b"; "#3cb44b"; "#ffe119"; "#4363d8";
   "#f58231"; "#911eb4"; "#46f0f0"; "#f032e6"].

(** [l[i]] for a Python list: negative indices count from the end. *)
Definition list_index (l : list string) (i : Z) : Result string :=
  let n := Z.of_nat (List.length l) in
  let j := if (i <? 0)%Z then (i + n)%Z else i in
  if (j <? 0)%Z then raise IndexError
  else match nth_error l (Z.to_nat j) with
       | Some x => ok x
       | None => raise IndexError
       end.

(** Float division raises on a zero divisor. *)
Definition py_div (a b : Q) : Result Q :=
  if Qeq_bool b 0 then raise ZeroDivisionError else ok (a / b).

(** [max] of a non-empty sequence: the first of the largest items. *)
Definition py_max (x : Q) (r : list Q) : Q :=
  fold_left (fun m y => if Qlt_bool m y then y else m) r x.

(** [pd.Series(df.Eigenvector.values, index=df.Jogador).to_dict()] *)
Definition eigenvector_scores_of (centrality_df : DataFrame) : dict Q :=
  dict_of_pairs (combine (Jogador centrality_df) (Eigenvector centrality_df)).

(** [max(eigenvector_scores.values()) if eigenvector_scores else 1.0] *)
Definition max_eigenvector_of (eigenvector_scores : dict Q) : Q :=
  match dict_values eigenvector_scores with
  | [] => 1
  | x :: r => py_max x r
  end.

(** The body of the loop over the nodes of the view graph, up to the
    call of [net.add_node]. *)
Definition style_node (G_completo : DiGraph) (eigenvector_scores : dict Q)
    (max_eigenvector : Q) (node : string) : Result net_node :=
  rbind (match dict_get (nodes G_completo) node with
         | Some attrs => ok attrs
         | None => raise (KeyError node)
         end) (fun attrs =>
  let community_id :=
    match community attrs with Some c => c | None => 0%Z end in
  let eigenvector := dict_get_default eigenvector_scores node 0 in
  rbind (list_index palette
           (community_id mod Z.of_nat (List.length palette))%Z) (fun color =>
  rbind (py_div eigenvector max_eigenvector) (fun ratio =>
  let size := 10 + ratio * 40 in
  ok {| n_id := node; label := node;
        title := {| hover_node := node;
                    hover_community := community_id;
                    hover_eigenvector := eigenvector |};
        color := color; size := size |}))).

(** pyvis [Network.add_node] ignores an identifier it already has;
    [Network.add_edge] asserts that both ends were added. *)
Definition net_ids (net : Network) : list string := map n_id (net_nodes net).

Definition net_add_node (net : Network) (n : net_node) : Network :=
  if mem_string (n_id n) (net_ids net) then net
  else {| physics := physics net;
          net_nodes := net_nodes net ++ [n];
          net_edges := net_edges net |}.

Definition net_add_edge (net : Network) (e : string * string)
  : Result Network :=
  if mem_string (fst e) (net_ids net) && mem_string (snd e) (net_ids net)
  then ok {| physics := physics net;
             net_nodes := net_nodes net;
             net_edges := net_edges net ++ [e] |}
  else raise AssertionError.

(** [G.edges()] runs over the source nodes in node order and, for each,
    over its successors in the order they were first met. *)
Definition edge_view (G : DiGraph) : list (string * string) :=
  flat_map (fun u =>
    let out := filter (fun e => String.eqb (src e) u) (edges G) in
    let succs := dict_keys (dict_of_pairs (map (fun e => (dst e, tt)) out)) in
    flat_map (fun v =>
      map (fun e => (src e, dst e))
          (filter (fun e => String.eqb (dst e) v) out)) succs)
    (node_list G).

Fixpoint add_nodes (G_completo : DiGraph) (eigenvector_scores : dict Q)
    (max_eigenvector : Q) (view_nodes : list string) (net : Network)
  : Result Network :=
  match view_nodes with
  | [] => ok net
  | node :: r =>
      rbind (style_node G_completo eigenvector_scores max_eigenvector node)
        (fun n => add_nodes G_completo eigenvector_scores max_eigenvector r
                    (net_add_node net n))
  end.

Fixpoint add_edges (es : list (string * string)) (net : Network)
  : Result Network :=
  match es with
  | [] => ok net
  | e :: r => rbind (net_add_edge net e) (add_edges r)
  end.

Definition build_render_set (G_visualizacao G_completo : DiGraph)
    (centrality_df : DataFrame) (physics_enabled : bool) : Result Network :=
  let net := {| physics := physics_enabled; net_nodes := []; net_edges := [] |} in
  let eigenvector_scores := eigenvector_scores_of centrality_df in
  let max_eigenvector := max_eigenvector_of eigenvector_scores in
  rbind (add_nodes G_completo eigenvector_scores max_eigenvector
           (node_list G_visualizacao) net) (fun net =>
  add_edges (edge_view G_visualizacao) net).

Definition html_error_msg (e : string) : string :=
  "Ocorreu um erro ao gerar o grafo interativo: " ++ e.

(** Writing and reading back the HTML file is the only part under
    [try]/[except Exception as e]; [save_error] is [None] when it goes
    through and the text of the exception otherwise, which the error
    message quotes. *)
Definition tab_rede (G_completo G_visualizacao : DiGraph)
    (centrality_df : DataFrame) (physics_enabled : bool)
    (save_error : option string) : App unit :=
  net <- lift (build_render_set G_visualizacao G_completo centrality_df
                 physics_enabled) ;;
  match save_error with
  | None => emit (components_html net)
  | Some e => emit (st_error (html_error_msg e))
  end.

(* ----------------------------------------------------------------- *)
(** *** The script *)

Definition load_warning : string :=
  "O grafo não pôde ser carregado. Verifique os arquivos .graphml.".

(** [if G_completo and G_visualizacao and centrality_df is not None]:
    [None] is false, and a graph is true when it has a node. *)
Definition main (lib : nx_lib) (fs : filesystem) (k_slider : nat)
    (physics_enabled : bool) (save_error : option string) : App unit :=
  r <- carregar_e_processar_dados lib fs ;;
  match r with
  | (Some G_completo, Some G_visualizacao, Some centrality_df) =>
      if truthy G_completo && truthy G_visualizacao then
        tab_metricas lib G_completo ;;;
        tab_centralidade centrality_df k_slider ;;;
        tab_rede G_completo G_visualizacao centrality_df physics_enabled save_error
      else emit (st_warning load_warning)
  | _ => emit (st_warning load_warning)
  end.

(* ================================================================= *)
(** ** Specification-side notions *)

(** The graphs [read_graphml] can build: distinct node identifiers, and
    every edge joins two nodes of the graph. *)
Definition wf_DiGraph (G : DiGraph) : Prop :=
  NoDup (node_list G) /\
  forall e, In e (edges G) ->
    In (src e) (node_list G) /\ In (dst e) (node_list G).

(** The community of a node as the network tab reads it: the attribute
    of the full graph, and [0] when the node carries none. *)
Definition community_id_of (G_completo : DiGraph) (node : string) : Z :=
  match dict_get (nodes G_completo) node with
  | Some attrs => match community attrs with Some c => c | None => 0%Z end
  | None => 0%Z
  end.

(** The node the network tab is expected to add for [node]: colour
    from the palette by community, size from the eigenvector score. *)
Definition styled_node (G_completo : DiGraph) (eigenvector_scores : dict Q)
    (max_eigenvector : Q) (node : string) : net_node :=
  let eigenvector := dict_get_default eigenvector_scores node 0 in
  {| n_id := node; label := node;
     title := {| hover_node := node;
                 hover_community := community_id_of G_completo node;
                 hover_eigenvector := eigenvector |};
     color := nth (Z.to_nat (community_id_of G_completo node mod 8)) palette "";
     size := 10 + (eigenvector / max_eigenvector) * 40 |}.

Definition metric_names (ws : list widget) : list string :=
  flat_map (fun w => match w with st_metric name _ => [name] | _ => [] end) ws.


(** Rows in non-increasing order of score. *)
Definition not_below (a b : string * Q) : Prop := snd b <= snd a.

(* ================================================================= *)
(** ** Sample inputs *)

Definition plain : node_attrs := {| community := None |}.

(** The path of the specification: A -> B -> C, weights 1. *)
Definition A_B_C : graphml :=
  {| doc_nodes := [("A", plain); ("B", plain); ("C", plain)];
     doc_edges := [ {| src := "A"; dst := "B"; weight := 1 |};
                    {| src := "B"; dst := "C"; weight := 1 |} ] |}.

(** One match and a player who never played. *)
Definition A_B_and_C : graphml :=
  {| doc_nodes := [("A", plain); ("B", plain); ("C", plain)];
     doc_edges := [ {| src := "A"; dst := "B"; weight := 1 |} ] |}.

(** A self-loop on A. *)
Definition A_A_B : graphml :=
  {| doc_nodes := [("A", plain); ("B", plain)];
     doc_edges := [ {| src := "A"; dst := "A"; weight := 1 |};
                    {| src := "A"; dst := "B"; weight := 1 |} ] |}.

Definition only_A : graphml :=
  {| doc_nodes := [("A", plain)]; doc_edges := [] |}.

Definition no_nodes : graphml := {| doc_nodes := []; doc_edges := [] |}.

Definition files (full view : option graphml) : filesystem :=
  fun path =>
    if String.eqb path rede_completa then full
    else if String.eqb path rede_visualizacao then view
    else None.

(** A library with fixed numerical answers, one score per node, to run
    the script on the sample inputs. *)
Definition uniform (q : Q) (G : Graph) : Result (dict Q) :=
  ok (map (fun n => (n, q)) (g_node_list G)).

Definition sample_lib : nx_lib :=
  {| average_clustering := fun _ => ok 0;
     degree_assortativity_coefficient := fun _ => ok 0;
     closeness_centrality := uniform (1 # 2);
     betweenness_centrality := uniform 0;
     eigenvector_centrality_numpy := uniform (1 # 2);
     number_weakly_connected_components := fun _ => 1%nat;
     number_strongly_connected_components := fun _ => 1%nat |}.


(** A library whose eigenvector call rejects the graph without nodes, as
    [nx.eigenvector_centrality_numpy] does. *)
Definition null_rejecting_lib : nx_lib :=
  {| average_clustering := fun _ => ok 0;
     degree_assortativity_coefficient := fun _ => ok 0;
     closeness_centrality := uniform (1 # 2);
     betweenness_centrality := uniform 0;
     eigenvector_centrality_numpy := fun G =>
       match g_nodes G with
       | [] => raise (LibraryError
                        "cannot compute centrality for the null graph")
       | _ => uniform (1 # 2) G
       end;
     number_weakly_connected_components := fun _ => 1%nat;
     number_strongly_connected_components := fun _ => 1%nat |}.


(** A table whose eigenvector scores are all zero. *)
Definition zero_table : DataFrame :=
  {| Jogador := ["A"]; Degree := [1]; Closeness := [1];
     Betweenness := [0]; Eigenvector := [0] |}.

Definition unit_table : DataFrame :=
  {| Jogador := ["A"]; Degree := [1]; Closeness := [1];
     Betweenness := [0]; Eigenvector := [1] |}.

(** The tables [sample_lib] gives for the two three-node samples. *)
Definition table_A_B_C : DataFrame :=
  {| Jogador := ["A"; "B"; "C"];
     Degree := [1 # 2; 2 # 2; 1 # 2];
     Closeness := [1 # 2; 1 # 2; 1 # 2];
     Betweenness := [0; 0; 0];
     Eigenvector := [1 # 2; 1 # 2; 1 # 2] |}.


Definition table_A_B_and_C : DataFrame :=
  {| Jogador := ["A"; "B"; "C"];
     Degree := [1 # 2; 1 # 2; 0 # 2];
     Closeness := [1 # 2; 1 # 2; 1 # 2];
     Betweenness := [0; 0; 0];
     Eigenvector := [1 # 2; 1 # 2; 1 # 2] |}.

(* ================================================================= *)
(** ** Further notions used to state properties *)

(** The edges of a directed graph as ordered pairs, in file order. *)
Definition edge_pairs (G : DiGraph) : list (string * string) :=
  map (fun e => (src e, dst e)) (edges G).

(** A walk of [d] steps along the edges of the undirected graph. *)
Inductive walk (G : Graph) (s : string) : string -> nat -> Prop :=
| walk_here : walk G s s 0
| walk_step : forall v w d,
    walk G s v d -> In w (neighbors G v) -> walk G s w (S d).

(** Two players of communities 1 and 9, one match. *)
Definition A1_B9 : graphml :=
  {| doc_nodes := [("A", {| community := Some 1%Z |});
                   ("B", {| community := Some 9%Z |})];
     doc_edges := [ {| src := "A"; dst := "B"; weight := 1 |} ] |}.

Definition table_A1_B9 : DataFrame :=
  {| Jogador := ["A"; "B"]; Degree := [1; 1]; Closeness := [1; 1];
     Betweenness := [0; 0]; Eigenvector := [1 # 2; 1 # 4] |}.

(** The widgets of the three tabs. *)
Definition is_tab_widget (w : widget) : bool :=
  match w with
  | st_metric _ _ | st_dataframe _ _ | components_html _ => true
  | _ => false
  end.

(* ================================================================= *)
(** * Properties *)

(* ----------------------------------------------------------------- *)
(** ** Dictionaries *)

Lemma mem_string_In (x : string) (l : list string) :
  mem_string x l = true <-> In x l.
Proof.
  unfold mem_string. rewrite existsb_exists. split.
  - intros [y [Hy He]]. apply String.eqb_eq in He. now subst.
  - intros H. exists x. split; [assumption | apply String.eqb_refl].
Qed.

Lemma mem_string_false (x : string) (l : list string) :
  mem_string x l = false <-> ~ In x l.
Proof.
  rewrite <- mem_string_In. destruct (mem_string x l); intuition congruence.
Qed.

Lemma dict_get_None {V} (d : dict V) (k : string) :
  dict_get d k = None <-> ~ In k (dict_keys d).
Proof.
  induction d as [|[k' v] r IH]; simpl.
  - tauto.
  - destruct (String.eqb_spec k k') as [->|Hne].
    + split; [discriminate | intros H; exfalso; apply H; now left].
    + rewrite IH. split.
      * intros H [E|E]; [now apply Hne | now apply H].
      * intros H E. apply H. now right.
Qed.

Lemma dict_get_Some_In {V} (d : dict V) (k : string) (v : V) :
  dict_get d k = Some v -> In k (dict_keys d).
Proof.
  intros H. destruct (in_dec string_dec k (dict_keys d)) as [Hin|Hnin].
  - assumption.
  - apply dict_get_None in Hnin. congruence.
Qed.

Lemma dict_get_In {V} (d : dict V) (k : string) :
  In k (dict_keys d) -> exists v, dict_get d k = Some v.
Proof.
  intros Hin. destruct (dict_get d k) as [v|] eqn:E.
  - now exists v.
  - apply dict_get_None in E. contradiction.
Qed.

Lemma dict_mem_In {V} (d : dict V) (k : string) :
  dict_mem d k = true <-> In k (dict_keys d).
Proof.
  unfold dict_mem. split.
  - destruct (dict_get d k) eqn:E; [|discriminate].
    intros _. eapply dict_get_Some_In; eassumption.
  - intros H. apply dict_get_In in H as [v ->]. reflexivity.
Qed.

Lemma dict_set_keys {V} (d : dict V) (k : string) (v : V) :
  dict_keys (dict_set d k v) =
  if dict_mem d k then dict_keys d else dict_keys d ++ [k].
Proof.
  unfold dict_mem. induction d as [|[k' v'] r IH]; simpl.
  - reflexivity.
  - destruct (String.eqb k k'); simpl.
    + reflexivity.
    + rewrite IH. now destruct (dict_get r k).
Qed.

Lemma NoDup_snoc {A} (l : list A) (x : A) :
  NoDup l -> ~ In x l -> NoDup (l ++ [x]).
Proof.
  intros Hl Hx. apply NoDup_app; [assumption | |].
  - constructor; [intros [] | constructor].
  - intros a Ha [<-|[]]. contradiction.
Qed.

Lemma dict_set_NoDup {V} (d : dict V) (k : string) (v : V) :
  NoDup (dict_keys d) -> NoDup (dict_keys (dict_set d k v)).
Proof.
  intros H. rewrite dict_set_keys. destruct (dict_mem d k) eqn:E.
  - assumption.
  - apply NoDup_snoc; [assumption|].
    intros Hin. apply dict_mem_In in Hin. congruence.
Qed.

Lemma dict_set_In {V} (d : dict V) (k : string) (v : V) (x : string) :
  In x (dict_keys (dict_set d k v)) <-> In x (dict_keys d) \/ x = k.
Proof.
  rewrite dict_set_keys. destruct (dict_mem d k) eqn:E.
  - apply dict_mem_In in E. split; [tauto|]. intros [H| ->]; assumption.
  - rewrite in_app_iff. simpl. intuition.
Qed.

Lemma fold_dict_set_keys {V} (l : list (string * V)) (d : dict V) :
  let d' := fold_left (fun d kv => dict_set d (fst kv) (snd kv)) l d in
  (NoDup (dict_keys d) -> NoDup (dict_keys d')) /\
  (forall x, In x (dict_keys d') <-> In x (dict_keys d) \/ In x (map fst l)).
Proof.
  revert d. induction l as [|[k v] r IH]; intros d; simpl.
  - split; [tauto | intuition].
  - destruct (IH (dict_set d k v)) as [IH1 IH2]. split.
    + intros H. apply IH1. now apply dict_set_NoDup.
    + intros x. rewrite IH2, dict_set_In. intuition.
Qed.

Lemma dict_of_pairs_NoDup {V} (l : list (string * V)) :
  NoDup (dict_keys (dict_of_pairs l)).
Proof.
  unfold dict_of_pairs. apply (fold_dict_set_keys l []). constructor.
Qed.

Lemma dict_of_pairs_In {V} (l : list (string * V)) (x : string) :
  In x (dict_keys (dict_of_pairs l)) <-> In x (map fst l).
Proof.
  unfold dict_of_pairs.
  destruct (fold_dict_set_keys l []) as [_ H]. rewrite H. simpl. tauto.
Qed.

Lemma dict_get_map {V} (f : string -> V) (l : list string) (k : string) :
  In k l -> dict_get (map (fun n => (n, f n)) l) k = Some (f k).
Proof.
  induction l as [|a r IH]; simpl; [tauto|].
  intros H. destruct (String.eqb_spec k a) as [->|Hne]; [reflexivity|].
  apply IH. destruct H as [->|H]; [contradiction | assumption].
Qed.

Lemma dict_keys_map {V} (f : string -> V) (l : list string) :
  dict_keys (map (fun n => (n, f n)) l) = l.
Proof.
  unfold dict_keys. rewrite map_map. simpl. apply map_id.
Qed.

(* ----------------------------------------------------------------- *)
(** ** Every graph read from a file is well formed *)

Lemma add_node_wf (G : DiGraph) (n : string) (a : node_attrs) :
  wf_DiGraph G -> wf_DiGraph (add_node G n a).
Proof.
  intros [Hnd Hed]. unfold add_node, wf_DiGraph, node_list.
  destruct (dict_get (nodes G) n) as [old|] eqn:E; simpl.
  - split; [now apply dict_set_NoDup|].
    intros e He. destruct (Hed e He) as [H1 H2].
    split; apply dict_set_In; now left.
  - split.
    + unfold dict_keys. rewrite map_app. simpl.
      apply NoDup_snoc; [assumption | now apply dict_get_None].
    + intros e He. destruct (Hed e He) as [H1 H2].
      unfold dict_keys. rewrite map_app.
      split; apply in_or_app; now left.
Qed.

Lemma ensure_node_keys (ns : dict node_attrs) (n : string) :
  (NoDup (dict_keys ns) -> NoDup (dict_keys (ensure_node ns n))) /\
  (forall x, In x (dict_keys (ensure_node ns n)) <->
             In x (dict_keys ns) \/ x = n).
Proof.
  unfold ensure_node. destruct (dict_mem ns n) eqn:E.
  - apply dict_mem_In in E. split; [tauto|].
    intros x. split; [tauto|]. intros [H| ->]; assumption.
  - unfold dict_keys. rewrite map_app. simpl. split.
    + intros H. apply NoDup_snoc; [assumption|].
      intros Hin. apply (dict_mem_In ns n) in Hin. congruence.
    + intros x. rewrite in_app_iff. simpl. intuition.
Qed.

Lemma add_edge_wf (G : DiGraph) (e : edge) :
  wf_DiGraph G -> wf_DiGraph (add_edge G e).
Proof.
  intros [Hnd Hed]. unfold add_edge, wf_DiGraph, node_list. simpl.
  destruct (ensure_node_keys (nodes G) (src e)) as [A1 A2].
  destruct (ensure_node_keys (ensure_node (nodes G) (src e)) (dst e))
    as [B1 B2].
  split; [auto|].
  intros e' He'. rewrite !B2, !A2. apply in_app_or in He' as [He'|[<-|[]]].
  - destruct (Hed e' He'). tauto.
  - tauto.
Qed.

Lemma fold_add_edge_wf (es : list edge) (G : DiGraph) :
  wf_DiGraph G -> wf_DiGraph (fold_left add_edge es G).
Proof.
  revert G. induction es as [|e r IH]; intros G HG; simpl.
  - assumption.
  - apply IH. now apply add_edge_wf.
Qed.

Lemma fold_add_node_wf (ns : list (string * node_attrs)) (G : DiGraph) :
  wf_DiGraph G ->
  wf_DiGraph (fold_left (fun G na => add_node G (fst na) (snd na)) ns G).
Proof.
  revert G. induction ns as [|n r IH]; intros G HG; simpl.
  - assumption.
  - apply IH. now apply add_node_wf.
Qed.

Lemma make_graph_wf (doc : graphml) : wf_DiGraph (make_graph doc).
Proof.
  unfold make_graph. apply fold_add_edge_wf, fold_add_node_wf.
  split; [constructor | intros e []].
Qed.

(* ----------------------------------------------------------------- *)
(** ** Loading *)

Lemma carregar_missing (lib : nx_lib) (fs : filesystem) (ws : list widget) :
  fs rede_completa = None \/ fs rede_visualizacao = None ->
  carregar_e_processar_dados lib fs ws =
  (ws ++ [st_error not_found_msg], ok (None, None, None)).
Proof.
  intros H. unfold carregar_e_processar_dados, read_graphml.
  destruct (fs rede_completa) as [docf|]; simpl.
  - destruct H as [H|H]; [discriminate|]. rewrite H. reflexivity.
  - reflexivity.
Qed.

Lemma carregar_present (lib : nx_lib) (fs : filesystem) (ws : list widget)
    (docf docv : graphml) :
  fs rede_completa = Some docf ->
  fs rede_visualizacao = Some docv ->
  carregar_e_processar_dados lib fs ws =
  match compute_centralities lib (make_graph docf) with
  | inl e => (ws, inl e)
  | inr df => (ws, ok (Some (make_graph docf), Some (make_graph docv), Some df))
  end.
Proof.
  intros Hf Hv. unfold carregar_e_processar_dados, read_graphml.
  rewrite Hf, Hv. simpl.
  destruct (compute_centralities lib (make_graph docf)); reflexivity.
Qed.

Lemma carregar_inv (lib : nx_lib) (fs : filesystem) (ws ws' : list widget)
    (G Gv : DiGraph) (df : DataFrame) :
  carregar_e_processar_dados lib fs ws = (ws', ok (Some G, Some Gv, Some df)) ->
  exists docf docv,
    fs rede_completa = Some docf /\ fs rede_visualizacao = Some docv /\
    G = make_graph docf /\ Gv = make_graph docv /\
    compute_centralities lib G = ok df /\ ws' = ws.
Proof.
  intros H.
  destruct (fs rede_completa) as [docf|] eqn:Ef.
  - destruct (fs rede_visualizacao) as [docv|] eqn:Ev.
    + rewrite (carregar_present lib fs ws docf docv Ef Ev) in H.
      destruct (compute_centralities lib (make_graph docf)) as [e|df'] eqn:Ec.
      * discriminate.
      * unfold ok in H. injection H as -> <- <- <-.
        exists docf, docv. now repeat split.
    + rewrite carregar_missing in H by now right. discriminate.
  - rewrite carregar_missing in H by now left. discriminate.
Qed.

Lemma truthy_number_of_nodes (G : DiGraph) :
  truthy G = false <-> number_of_nodes G = 0%nat.
Proof.
  unfold truthy, number_of_nodes. destruct (nodes G); simpl.
  - tauto.
  - split; discriminate.
Qed.

(** C4. When either of the two GraphML files is missing, loading ends
    with the error message and the triple [(None, None, None)], and the
    script shows only that error and the warning of the failure branch:
    no metric, no ranking, no network. *)
Theorem missing_file_aborts_pipeline (lib : nx_lib) (fs : filesystem)
    (k_slider : nat) (physics_enabled : bool) (save_error : option string) :
  fs rede_completa = None \/ fs rede_visualizacao = None ->
  run (carregar_e_processar_dados lib fs) =
    ([st_error not_found_msg], ok (None, None, None)) /\
  run (main lib fs k_slider physics_enabled save_error) =
    ([st_error not_found_msg; st_warning load_warning], ok tt).
Proof.
  intros H. unfold run. split.
  - now rewrite carregar_missing.
  - unfold main, bind. now rewrite carregar_missing.
Qed.

Lemma missing_file_aborts_pipeline_witness :
  run (carregar_e_processar_dados sample_lib (files (Some A_B_C) None)) =
    ([st_error not_found_msg], ok (None, None, None)) /\
  run (main sample_lib (files (Some A_B_C) None) 10 true None) =
    ([st_error not_found_msg; st_warning load_warning], ok tt).
Proof.
  apply (missing_file_aborts_pipeline sample_lib (files (Some A_B_C) None)
           10 true None).
  right. reflexivity.
Defined.

(** C10, on an empty view graph and on a missing view file: the first
    run shows the warning alone, the second shows the error message of
    the loader and then the warning, so the two pages differ. *)
Lemma empty_graph_differs_from_failed_load :
  run (main sample_lib (files (Some A_B_C) (Some no_nodes)) 10 true None)
    = ([st_warning load_warning], ok tt) /\
  run (main sample_lib (files (Some A_B_C) None) 10 true None)
    = ([st_error not_found_msg; st_warning load_warning], ok tt) /\
  run (main sample_lib (files (Some A_B_C) (Some no_nodes)) 10 true None) <>
  run (main sample_lib (files (Some A_B_C) None) 10 true None).
Proof.
  split; [vm_compute; reflexivity|]. split; [vm_compute; reflexivity|].
  vm_compute. discriminate.
Qed.

(** C10, as the script has it.  With both files present: when the
    loader returns and the full graph or the view graph has no node, the
    guard is false (the truth value of a graph is that it has a node)
    and the script shows the warning of the failure branch and nothing
    else; this page differs from the page of a failed load, which shows
    the error message of the loader before the warning.  For a full
    graph without nodes the loader returns only if the three centrality
    calls do: with a library whose eigenvector call rejects every graph
    without nodes, that exception ends the script with an empty page and
    no warning. *)
Theorem empty_graph_takes_failure_branch (lib : nx_lib) (fs : filesystem)
    (k_slider : nat) (physics_enabled : bool) (save_error : option string)
    (docf docv : graphml) :
  fs rede_completa = Some docf ->
  fs rede_visualizacao = Some docv ->
  (forall centrality_df,
     compute_centralities lib (make_graph docf) = ok centrality_df ->
     number_of_nodes (make_graph docf) = 0%nat \/
     number_of_nodes (make_graph docv) = 0%nat ->
     truthy (make_graph docf) && truthy (make_graph docv) = false /\
     run (carregar_e_processar_dados lib fs) =
       ([], ok (Some (make_graph docf), Some (make_graph docv),
                Some centrality_df)) /\
     run (main lib fs k_slider physics_enabled save_error) =
       ([st_warning load_warning], ok tt) /\
     forall fs',
       fs' rede_completa = None \/ fs' rede_visualizacao = None ->
       run (main lib fs' k_slider physics_enabled save_error) =
         ([st_error not_found_msg; st_warning load_warning], ok tt) /\
       run (main lib fs' k_slider physics_enabled save_error) <>
       run (main lib fs k_slider physics_enabled save_error)) /\
  (forall clo btw e,
     number_of_nodes (make_graph docf) = 0%nat ->
     closeness_centrality lib (nx_Graph (make_graph docf)) = ok clo ->
     betweenness_centrality lib (nx_Graph (make_graph docf)) = ok btw ->
     (forall G, g_nodes G = [] ->
        eigenvector_centrality_numpy lib G = raise e) ->
     run (main lib fs k_slider physics_enabled save_error) = ([], raise e)).
Proof.
  intros Hf Hv.
  pose proof (carregar_present lib fs [] docf docv Hf Hv) as Hload.
  split.
  - intros df Hc Hempty. rewrite Hc in Hload.
    assert (Hg : truthy (make_graph docf) && truthy (make_graph docv) = false).
    { apply andb_false_iff.
      destruct Hempty as [H|H]; [left | right];
        now apply truthy_number_of_nodes. }
    assert (Hmain : run (main lib fs k_slider physics_enabled save_error) =
                    ([st_warning load_warning], ok tt)).
    { unfold run, main, bind. rewrite Hload. unfold ok. now rewrite Hg. }
    split; [exact Hg|]. split; [exact Hload|]. split; [exact Hmain|].
    intros fs' Hmiss.
    assert (Hfail : run (main lib fs' k_slider physics_enabled save_error) =
                    ([st_error not_found_msg; st_warning load_warning], ok tt)).
    { unfold run, main, bind. now rewrite carregar_missing. }
    split; [exact Hfail|]. rewrite Hfail, Hmain. discriminate.
  - intros clo btw e Hnull Hc Hb He.
    assert (Hraise : compute_centralities lib (make_graph docf) = raise e).
    { unfold compute_centralities. rewrite Hc, Hb, He; [reflexivity|].
      simpl. unfold number_of_nodes in Hnull.
      now destruct (nodes (make_graph docf)). }
    rewrite Hraise in Hload. unfold run, main, bind. now rewrite Hload.
Qed.

Lemma empty_graph_takes_failure_branch_witness :
  (truthy (make_graph A_B_C) && truthy (make_graph no_nodes) = false /\
   run (carregar_e_processar_dados sample_lib
          (files (Some A_B_C) (Some no_nodes))) =
     ([], ok (Some (make_graph A_B_C), Some (make_graph no_nodes),
              Some table_A_B_C)) /\
   run (main sample_lib (files (Some A_B_C) (Some no_nodes)) 10 true None) =
     ([st_warning load_warning], ok tt) /\
   forall fs',
     fs' rede_completa = None \/ fs' rede_visualizacao = None ->
     run (main sample_lib fs' 10 true None) =
       ([st_error not_found_msg; st_warning load_warning], ok tt) /\
     run (main sample_lib fs' 10 true None) <>
     run (main sample_lib (files (Some A_B_C) (Some no_nodes)) 10 true None)) /\
  run (main null_rejecting_lib (files (Some no_nodes) (Some A_B_C))
         10 true None) =
    ([], raise (LibraryError "cannot compute centrality for the null graph")).
Proof.
  split.
  - apply (empty_graph_takes_failure_branch sample_lib
             (files (Some A_B_C) (Some no_nodes)) 10 true None A_B_C no_nodes
             eq_refl eq_refl).
    + vm_compute. reflexivity.
    + right. reflexivity.
  - apply (empty_graph_takes_failure_branch null_rejecting_lib
             (files (Some no_nodes) (Some A_B_C)) 10 true None no_nodes A_B_C
             eq_refl eq_refl) with (clo := []) (btw := []);
      try reflexivity.
    intros G HG. simpl. now rewrite HG.
Defined.

(* ----------------------------------------------------------------- *)
(** ** The metrics tab, case by case *)

Lemma tab_metricas_eq (lib : nx_lib) (G : DiGraph) (ws : list widget) :
  tab_metricas lib G ws =
  let g := nx_Graph G in
  let first3 :=
    [st_metric "Total de Jogadores (Nós)" (Count (number_of_nodes G));
     st_metric "Total de Partidas (Arestas)" (Count (number_of_edges G));
     st_metric "Densidade da Rede" (Number (density G))] in
  match average_clustering lib g with
  | inl e => (ws ++ first3, inl e)
  | inr c =>
      let m4 := st_metric "Coef. de Clustering Global" (Number c) in
      match degree_assortativity_coefficient lib g with
      | inl e => (ws ++ first3 ++ [m4], inl e)
      | inr a =>
          let m5 := st_metric "Assortatividade de Grau" (Number a) in
          match diameter g with
          | inl e => (ws ++ first3 ++ [m4; m5], inl e)
          | inr d =>
              (ws ++ first3 ++
               [m4; m5; st_metric "Diâmetro da Rede" (Count d);
                st_metric "Componentes Fracamente Conectados"
                  (Count (number_weakly_connected_components lib G));
                st_metric "Componentes Fortemente Conectados"
                  (Count (number_strongly_connected_components lib G))],
               ok tt)
          end
      end
  end.
Proof.
  unfold tab_metricas, bind, emit, lift, throw, ret, ok, raise. cbv zeta.
  destruct (average_clustering lib (nx_Graph G)) as [e|c];
    [simpl; rewrite <- ?app_assoc; reflexivity|].
  destruct (degree_assortativity_coefficient lib (nx_Graph G)) as [e|a];
    [simpl; rewrite <- ?app_assoc; reflexivity|].
  destruct (diameter (nx_Graph G)) as [e|d];
    simpl; rewrite <- ?app_assoc; reflexivity.
Qed.

(* ----------------------------------------------------------------- *)
(** ** Density *)

Lemma Qnat_mul (a b : nat) : Qnat (a * b) == Qnat a * Qnat b.
Proof.
  unfold Qnat. rewrite Nat2Z.inj_mul, inject_Z_mult. reflexivity.
Qed.

Lemma Qnat_pred (n : nat) : (1 <= n)%nat -> Qnat (n - 1) == Qnat n - 1.
Proof.
  intros H. unfold Qnat. rewrite Nat2Z.inj_sub by assumption.
  unfold Z.sub. rewrite inject_Z_plus, inject_Z_opp. reflexivity.
Qed.

Lemma density_formula (G : DiGraph) :
  density G ==
  if (number_of_nodes G <=? 1)%nat then 0
  else Qnat (number_of_edges G) /
       (Qnat (number_of_nodes G) * (Qnat (number_of_nodes G) - 1)).
Proof.
  unfold density.
  destruct (Nat.leb_spec (number_of_nodes G) 1) as [Hn|Hn].
  - rewrite orb_true_r. reflexivity.
  - rewrite orb_false_r.
    destruct (Nat.eqb_spec (number_of_edges G) 0) as [Hm|Hm].
    + rewrite Hm. unfold Qdiv. simpl (Qnat 0). now rewrite Qmult_0_l.
    + rewrite Qnat_mul, Qnat_pred by lia. reflexivity.
Qed.

(** C1, on the specification's path A -> B -> C: the density the script
    computes is 1/3, not 2/3. *)
Lemma density_of_path_is_not_two_thirds :
  density (make_graph A_B_C) == 1 # 3 /\
  ~ density (make_graph A_B_C) == 2 # 3.
Proof.
  split.
  - vm_compute. reflexivity.
  - vm_compute. discriminate.
Qed.

(** C1, as the script has it.  The density shown is [nx.density] of the
    loaded directed graph: the number of its edges (each direction and
    each parallel edge counted) over [n * (n - 1)], and 0 when the graph
    has at most one node.  It is the third metric of the tab, and for
    the path A -> B -> C it is 1/3. *)
Theorem reported_density_is_directed_density (lib : nx_lib) (G : DiGraph)
    (ws : list widget) :
  (density G ==
   if (number_of_nodes G <=? 1)%nat then 0
   else Qnat (number_of_edges G) /
        (Qnat (number_of_nodes G) * (Qnat (number_of_nodes G) - 1))) /\
  (exists rest,
     fst (tab_metricas lib G ws) =
     ws ++ [st_metric "Total de Jogadores (Nós)" (Count (number_of_nodes G));
            st_metric "Total de Partidas (Arestas)" (Count (number_of_edges G));
            st_metric "Densidade da Rede" (Number (density G))] ++ rest) /\
  density (make_graph A_B_C) == 1 # 3.
Proof.
  split; [apply density_formula|]. split.
  - rewrite tab_metricas_eq. cbv zeta.
    destruct (average_clustering lib (nx_Graph G)) as [e|c].
    { exists []. reflexivity. }
    destruct (degree_assortativity_coefficient lib (nx_Graph G)) as [e|a].
    { eexists. simpl. reflexivity. }
    destruct (diameter (nx_Graph G)) as [e|d]; eexists; simpl; reflexivity.
  - vm_compute. reflexivity.
Qed.

(* ----------------------------------------------------------------- *)
(** ** The undirected graph of a loaded graph *)

Lemma incident_In (u : string) (es : list edge) (w : string) :
  In w (map fst (flat_map (incident u) es)) <->
  exists e, In e es /\
    ((src e = u /\ dst e = w) \/ (dst e = u /\ src e = w)).
Proof.
  rewrite in_map_iff. split.
  - intros [[w' q] [Hw Hin]]. simpl in Hw. subst w'.
    apply in_flat_map in Hin as [e [He Hinc]]. exists e. split; [assumption|].
    unfold incident in Hinc.
    destruct (String.eqb_spec (src e) u) as [Hs|Hs].
    + destruct Hinc as [Hinc|[]]. injection Hinc as Hd _. now left.
    + destruct (String.eqb_spec (dst e) u) as [Hd|Hd]; [|destruct Hinc].
      destruct Hinc as [Hinc|[]]. injection Hinc as Hd' _. now right.
  - intros [e [He Hcase]].
    exists (w, weight e). split; [reflexivity|].
    apply in_flat_map. exists e. split; [assumption|].
    unfold incident. destruct Hcase as [[Hs Hd]|[Hd Hs]].
    + rewrite <- Hs, String.eqb_refl, Hd. now left.
    + destruct (String.eqb_spec (src e) u) as [Hs'|Hs'].
      * left. congruence.
      * rewrite <- Hd, String.eqb_refl, Hs. now left.
Qed.

Lemma edges_by_source_In (G : DiGraph) (e : edge) :
  In e (edges_by_source G) <-> In e (edges G) /\ In (src e) (node_list G).
Proof.
  unfold edges_by_source. rewrite in_flat_map. split.
  - intros [u [Hu H]]. apply in_flat_map in H as [v [_ H]].
    apply filter_In in H as [H _]. apply filter_In in H as [H Hs].
    apply String.eqb_eq in Hs. subst u. now split.
  - intros [He Hs]. exists (src e). split; [exact Hs|].
    apply in_flat_map. exists (dst e). split.
    + apply dict_of_pairs_In. rewrite map_map. simpl.
      apply in_map_iff. exists e. split; [reflexivity|].
      apply filter_In. split; [exact He | apply String.eqb_refl].
    + apply filter_In. split; [|apply String.eqb_refl].
      apply filter_In. split; [exact He | apply String.eqb_refl].
Qed.

Lemma neighbors_nx_Graph (G : DiGraph) (u : string) :
  neighbors (nx_Graph G) u =
  if mem_string u (node_list G)
  then dict_keys (adjacency (edges_by_source G) u) else [].
Proof.
  unfold neighbors, nx_Graph. simpl.
  destruct (mem_string u (node_list G)) eqn:E.
  - apply mem_string_In in E.
    now rewrite (dict_get_map (adjacency (edges_by_source G)) (node_list G) u E).
  - apply mem_string_false in E.
    assert (H : dict_get
                  (map (fun u0 => (u0, adjacency (edges_by_source G) u0))
                       (node_list G))
                  u = None).
    { apply dict_get_None. now rewrite dict_keys_map. }
    now rewrite H.
Qed.

Lemma neighbors_In (G : DiGraph) (u w : string) :
  wf_DiGraph G ->
  (In w (neighbors (nx_Graph G) u) <->
   In u (node_list G) /\
   exists e, In e (edges G) /\
     ((src e = u /\ dst e = w) \/ (dst e = u /\ src e = w))).
Proof.
  intros [_ Hed].
  rewrite neighbors_nx_Graph. destruct (mem_string u (node_list G)) eqn:E.
  - apply mem_string_In in E. unfold adjacency.
    rewrite dict_of_pairs_In, incident_In. split.
    + intros [e [He Hc]]. apply edges_by_source_In in He as [He _].
      split; [exact E | now exists e].
    + intros [_ [e [He Hc]]]. exists e. split; [|exact Hc].
      apply edges_by_source_In. split; [exact He | now apply Hed].
  - apply mem_string_false in E. simpl. tauto.
Qed.

Lemma neighbors_NoDup (G : DiGraph) (u : string) :
  NoDup (neighbors (nx_Graph G) u).
Proof.
  rewrite neighbors_nx_Graph. destruct (mem_string u (node_list G)).
  - apply dict_of_pairs_NoDup.
  - constructor.
Qed.

Lemma neighbors_closed (G : DiGraph) (u w : string) :
  wf_DiGraph G -> In w (neighbors (nx_Graph G) u) ->
  In w (g_node_list (nx_Graph G)).
Proof.
  intros Hwf H. pose proof Hwf as [_ Hed].
  apply (neighbors_In G u w Hwf) in H as [_ [e [He Hcase]]].
  destruct (Hed e He) as [Hs Hd]. unfold g_node_list, nx_Graph. simpl.
  destruct Hcase as [[_ <-]|[_ <-]]; assumption.
Qed.

Lemma reach_in_nodes (G : DiGraph) (s x : string) :
  wf_DiGraph G -> In s (node_list G) -> reach (nx_Graph G) s x ->
  In x (node_list G).
Proof.
  intros Hwf Hs Hr. induction Hr as [|v w _ _ Hw].
  - assumption.
  - exact (neighbors_closed G v w Hwf Hw).
Qed.

(* ----------------------------------------------------------------- *)
(** ** The breadth-first search only finds reachable nodes, once each *)

Lemma visit_spec (ws seen next : list string) :
  exists new,
    visit ws seen next = (rev new ++ seen, next ++ new) /\
    NoDup new /\
    forall x, In x new -> In x ws /\ ~ In x seen.
Proof.
  revert seen next. induction ws as [|w ws' IH]; intros seen next; simpl.
  - exists []. simpl. rewrite app_nil_r. repeat split; [constructor | tauto | tauto].
  - destruct (mem_string w seen) eqn:E.
    + destruct (IH seen next) as [new [Heq [Hnd Hin]]].
      exists new. repeat split; try assumption.
      * right. now apply Hin.
      * now apply Hin.
    + apply mem_string_false in E.
      destruct (IH (w :: seen) (next ++ [w])) as [new [Heq [Hnd Hin]]].
      exists (w :: new). rewrite Heq. simpl. rewrite <- !app_assoc. simpl.
      split; [reflexivity|]. split.
      * constructor; [|assumption]. intros Hw.
        apply Hin in Hw as [_ Hw]. apply Hw. now left.
      * intros x [<-|Hx]; [tauto|].
        apply Hin in Hx as [Hx1 Hx2]. split; [now right|].
        intros Hs. apply Hx2. now right.
Qed.

Lemma scan_level_spec (G : Graph) (thislevel seen next : list string) :
  exists new,
    scan_level G thislevel seen next = (rev new ++ seen, next ++ new) /\
    NoDup new /\
    forall x, In x new ->
      ~ In x seen /\ exists v, In v thislevel /\ In x (neighbors G v).
Proof.
  revert seen next.
  induction thislevel as [|v r IH]; intros seen next; simpl.
  - exists []. simpl. rewrite app_nil_r. repeat split; [constructor | tauto | tauto].
  - destruct (visit_spec (neighbors G v) seen next) as [n1 [E1 [ND1 H1]]].
    rewrite E1.
    destruct (IH (rev n1 ++ seen) (next ++ n1)) as [n2 [E2 [ND2 H2]]].
    exists (n1 ++ n2). rewrite E2, rev_app_distr, <- !app_assoc.
    split; [reflexivity|]. split.
    + apply NoDup_app; [assumption | assumption |].
      intros a Ha1 Ha2. apply H2 in Ha2 as [Hn _]. apply Hn.
      apply in_or_app. left. now apply in_rev in Ha1.
    + intros x Hx. apply in_app_or in Hx as [Hx|Hx].
      * apply H1 in Hx as [Hx1 Hx2]. split; [assumption|].
        exists v. split; [now left | assumption].
      * apply H2 in Hx as [Hx1 [v' [Hv1 Hv2]]]. split.
        -- intros Hs. apply Hx1. apply in_or_app. now right.
        -- exists v'. split; [now right | assumption].
Qed.

Lemma bfs_sound (G : Graph) (s : string) (fuel : nat) :
  forall level thislevel seen found,
    NoDup (dict_keys found) ->
    (forall x, In x (dict_keys found) -> In x seen) ->
    (forall x, In x thislevel -> reach G s x) ->
    (forall x, In x (dict_keys found) -> reach G s x) ->
    NoDup (dict_keys (bfs G fuel level thislevel seen found)) /\
    forall x, In x (dict_keys (bfs G fuel level thislevel seen found)) ->
      reach G s x.
Proof.
  induction fuel as [|fuel IH]; intros level thislevel seen found ND Sub RL RF;
    simpl.
  - now split.
  - destruct thislevel as [|v r]; [now split|].
    destruct (scan_level_spec G (v :: r) seen []) as [new [E [NDn Hn]]].
    rewrite E. simpl ([] ++ new).
    assert (K : dict_keys (found ++ map (fun w => (w, S level)) new)
                = dict_keys found ++ new).
    { unfold dict_keys. rewrite map_app, map_map. simpl. now rewrite map_id. }
    apply IH.
    + rewrite K. apply NoDup_app; [assumption | assumption |].
      intros a Ha1 Ha2. apply Hn in Ha2 as [Hns _]. apply Hns. now apply Sub.
    + intros x. rewrite K. intros Hx. apply in_or_app.
      apply in_app_or in Hx as [Hx|Hx].
      * right. now apply Sub.
      * left. now apply in_rev in Hx.
    + intros x Hx. apply Hn in Hx as [_ [v' [Hv1 Hv2]]].
      eapply reach_step; [apply RL; exact Hv1 | exact Hv2].
    + intros x. rewrite K. intros Hx. apply in_app_or in Hx as [Hx|Hx].
      * now apply RF.
      * apply Hn in Hx as [_ [v' [Hv1 Hv2]]].
        eapply reach_step; [apply RL; exact Hv1 | exact Hv2].
Qed.

Lemma shortest_path_length_sound (G : Graph) (s : string) :
  NoDup (dict_keys (single_source_shortest_path_length G s)) /\
  forall x, In x (dict_keys (single_source_shortest_path_length G s)) ->
    reach G s x.
Proof.
  unfold single_source_shortest_path_length. apply bfs_sound; simpl.
  - constructor; [intros [] | constructor].
  - tauto.
  - intros x [<-|[]]. constructor.
  - intros x [<-|[]]. constructor.
Qed.

(* ----------------------------------------------------------------- *)
(** ** The diameter *)

Lemma mapM_inl {A B} (f : A -> Result B) (l : list A) (e : exn) :
  mapM f l = inl e -> exists x, In x l /\ f x = inl e.
Proof.
  induction l as [|a r IH]; simpl; [discriminate|].
  destruct (f a) as [e'|y] eqn:Ea; simpl.
  - intros H. injection H as ->. exists a. split; [now left | assumption].
  - destruct (mapM f r) as [e'|ys]; simpl; [|discriminate].
    intros H. injection H as ->.
    destruct (IH eq_refl) as [x [Hx Hf]]. exists x. split; [now right | assumption].
Qed.

Lemma mapM_inr {A B} (f : A -> Result B) (l : list A) (ys : list B) :
  mapM f l = inr ys ->
  List.length ys = List.length l /\ forall x, In x l -> exists y, f x = inr y.
Proof.
  revert ys. induction l as [|a r IH]; intros ys; simpl.
  - intros H. injection H as <-. split; [reflexivity | tauto].
  - destruct (f a) as [e'|y] eqn:Ea; simpl; [discriminate|].
    destruct (mapM f r) as [e'|ys']; simpl; [discriminate|].
    intros H. injection H as <-. destruct (IH ys' eq_refl) as [HL HA].
    split; [simpl; now rewrite HL|].
    intros x [<-|Hx]; [now exists y | now apply HA].
Qed.

Lemma eccentricity_of_inl (G : Graph) (n : string) (e : exn) :
  eccentricity_of G n = inl e -> e = NetworkXError not_connected_msg.
Proof.
  unfold eccentricity_of.
  destruct (List.length (single_source_shortest_path_length G n) =? order G)%nat.
  - discriminate.
  - intros H. now injection H as <-.
Qed.

Lemma eccentricity_of_inr (G : DiGraph) (u : string) (d : nat) :
  wf_DiGraph G -> In u (node_list G) ->
  eccentricity_of (nx_Graph G) u = inr d ->
  forall v, In v (node_list G) -> reach (nx_Graph G) u v.
Proof.
  intros Hwf Hu. unfold eccentricity_of.
  destruct (Nat.eqb_spec
              (List.length (single_source_shortest_path_length (nx_Graph G) u))
              (order (nx_Graph G))) as [E|E]; [|discriminate].
  intros _ v Hv.
  destruct (shortest_path_length_sound (nx_Graph G) u) as [ND Hreach].
  apply Hreach.
  apply (NoDup_length_incl ND (l' := node_list G)).
  - unfold dict_keys at 1. rewrite length_map, E.
    unfold order, node_list, dict_keys. simpl. now rewrite length_map.
  - intros x Hx. apply (reach_in_nodes G u x Hwf Hu). now apply Hreach.
  - assumption.
Qed.

Lemma diameter_ok_connected (G : DiGraph) (d : nat) :
  wf_DiGraph G -> diameter (nx_Graph G) = inr d -> connected (nx_Graph G).
Proof.
  intros Hwf. unfold diameter, eccentricity.
  destruct (mapM (eccentricity_of (nx_Graph G)) (g_node_list (nx_Graph G)))
    as [e|es] eqn:E; simpl; [discriminate|].
  intros _ u v Hu Hv.
  destruct (mapM_inr _ _ _ E) as [_ Hall].
  destruct (Hall u Hu) as [du Hdu].
  exact (eccentricity_of_inr G u du Hwf Hu Hdu v Hv).
Qed.

Lemma diameter_not_connected (G : DiGraph) :
  wf_DiGraph G -> ~ connected (nx_Graph G) ->
  diameter (nx_Graph G) = raise (NetworkXError not_connected_msg).
Proof.
  intros Hwf Hnc.
  destruct (diameter (nx_Graph G)) as [e|d] eqn:Ed.
  - revert Ed. unfold diameter, eccentricity.
    destruct (mapM (eccentricity_of (nx_Graph G)) (g_node_list (nx_Graph G)))
      as [e'|es] eqn:E; simpl.
    + intros H. injection H as <-.
      destruct (mapM_inl _ _ _ E) as [x [_ Hx]].
      now rewrite (eccentricity_of_inl _ _ _ Hx).
    + destruct es as [|e0 es]; [|discriminate].
      intros _. exfalso. apply Hnc.
      destruct (mapM_inr _ _ _ E) as [HL _].
      destruct (g_node_list (nx_Graph G)) eqn:En; [|discriminate].
      intros u v Hu. rewrite En in Hu. destruct Hu.
  - exfalso. apply Hnc. exact (diameter_ok_connected G d Hwf Ed).
Qed.

(* ----------------------------------------------------------------- *)
(** ** The search reaches every reachable node: a connected graph has a
       diameter *)

Lemma visit_covers (ws : list string) :
  forall seen next w,
    In w ws \/ In w seen -> In w (fst (visit ws seen next)).
Proof.
  induction ws as [|a ws' IH]; intros seen next w H; simpl.
  - destruct H as [[]|H]. exact H.
  - destruct (mem_string a seen) eqn:E.
    + apply mem_string_In in E. apply IH.
      destruct H as [[<-|H]|H]; [now right | now left | now right].
    + apply IH. destruct H as [[<-|H]|H];
        [right; now left | now left | right; now right].
Qed.

Lemma scan_level_covers (G : Graph) (thislevel : list string) :
  forall seen next w,
    In w seen \/ (exists v, In v thislevel /\ In w (neighbors G v)) ->
    In w (fst (scan_level G thislevel seen next)).
Proof.
  induction thislevel as [|v r IH]; intros seen next w H; simpl.
  - destruct H as [H|[v [[] _]]]. exact H.
  - destruct (visit (neighbors G v) seen next) as [seen' next'] eqn:E.
    assert (Hv : forall x, In x (neighbors G v) \/ In x seen -> In x seen').
    { intros x Hx.
      pose proof (visit_covers (neighbors G v) seen next x Hx) as K.
      now rewrite E in K. }
    apply IH. destruct H as [H|[v' [[<-|Hv'] Hw]]].
    + left. apply Hv. now right.
    + left. apply Hv. now left.
    + right. now exists v'.
Qed.

Lemma bfs_complete (G : Graph) (s : string) :
  (forall u w, In w (neighbors G u) -> In w (g_node_list G)) ->
  forall fuel level thislevel seen found,
    NoDup seen ->
    incl seen (g_node_list G) ->
    incl thislevel seen ->
    (forall x, In x seen -> In x (dict_keys found)) ->
    (forall x, In x seen -> ~ In x thislevel ->
       forall w, In w (neighbors G x) -> In w seen) ->
    (thislevel <> [] -> (order G + 1 <= fuel + List.length seen)%nat) ->
    In s seen ->
    forall x, reach G s x ->
      In x (dict_keys (bfs G fuel level thislevel seen found)).
Proof.
  intros Hclosed.
  assert (Hdone : forall (seen : list string) (found : dict nat),
            (forall x, In x seen -> In x (dict_keys found)) ->
            (forall x, In x seen ->
               forall w, In w (neighbors G x) -> In w seen) ->
            In s seen ->
            forall x, reach G s x -> In x (dict_keys found)).
  { intros seen found Hk Hc Hs x Hr. apply Hk.
    induction Hr as [|v w _ IH Hw]; [assumption|]. exact (Hc v IH w Hw). }
  induction fuel as [|fuel IH];
    intros level thislevel seen found ND Hsub Hlvl Hk Hc Hfuel Hs x Hr; simpl.
  - destruct thislevel as [|v r].
    + apply (Hdone seen found Hk); auto.
      intros a Ha w Hw. apply (Hc a Ha (fun F => F) w Hw).
    + exfalso.
      pose proof (NoDup_incl_length ND Hsub) as Hle.
      assert (Hf : (order G + 1 <= 0 + List.length seen)%nat)
        by (apply Hfuel; discriminate).
      unfold order in Hf. unfold g_node_list, dict_keys in Hle.
      rewrite length_map in Hle. lia.
  - destruct thislevel as [|v r].
    + apply (Hdone seen found Hk); auto.
      intros a Ha w Hw. apply (Hc a Ha (fun F => F) w Hw).
    + destruct (scan_level_spec G (v :: r) seen []) as [new [E [NDn Hn]]].
      pose proof (scan_level_covers G (v :: r) seen []) as Hcov.
      rewrite E in *. simpl ([] ++ new) in *. simpl fst in Hcov.
      assert (K : dict_keys (found ++ map (fun w => (w, S level)) new)
                  = dict_keys found ++ new).
      { unfold dict_keys. rewrite map_app, map_map. simpl. now rewrite map_id. }
      apply IH; try assumption.
      * apply NoDup_app; [now apply NoDup_rev | assumption |].
        intros a Ha Hb. apply in_rev in Ha. apply Hn in Ha as [Ha _].
        contradiction.
      * intros a Ha. apply in_app_or in Ha as [Ha|Ha]; [|now apply Hsub].
        apply in_rev in Ha. apply Hn in Ha as [_ [v' [_ Hw]]].
        exact (Hclosed v' a Hw).
      * intros a Ha. apply in_or_app. left. now apply in_rev in Ha.
      * intros a Ha. rewrite K. apply in_or_app.
        apply in_app_or in Ha as [Ha|Ha].
        -- right. now apply in_rev in Ha.
        -- left. now apply Hk.
      * intros a Ha Hnot w Hw. apply in_app_or in Ha as [Ha|Ha].
        -- apply in_rev in Ha. contradiction.
        -- apply Hcov.
           destruct (in_dec string_dec a (v :: r)) as [Hin|Hout].
           ++ right. now exists a.
           ++ left. exact (Hc a Ha Hout w Hw).
      * intros Hne. rewrite length_app, length_rev.
        assert (Hv : (order G + 1 <= S fuel + List.length seen)%nat)
          by (apply Hfuel; discriminate).
        destruct new; [contradiction|]. simpl. lia.
      * apply in_or_app. now right.
Qed.

Lemma shortest_path_length_complete (G : DiGraph) (s x : string) :
  wf_DiGraph G -> In s (node_list G) -> reach (nx_Graph G) s x ->
  In x (dict_keys (single_source_shortest_path_length (nx_Graph G) s)).
Proof.
  intros Hwf Hs Hr. unfold single_source_shortest_path_length.
  assert (Hn : (1 <= order (nx_Graph G))%nat).
  { unfold order. simpl. unfold node_list, dict_keys in Hs.
    destruct (nodes G); [destruct Hs | simpl; lia]. }
  apply (bfs_complete (nx_Graph G) s); try assumption.
  - intros u w. apply neighbors_closed. assumption.
  - constructor; [intros [] | constructor].
  - intros a [<-|[]]. exact Hs.
  - intros a Ha. exact Ha.
  - simpl. tauto.
  - intros a [<-|[]] Hnot. exfalso. apply Hnot. now left.
  - intros _. simpl. lia.
  - now left.
Qed.

Lemma mapM_all_ok {A B} (f : A -> Result B) (l : list A) :
  (forall x, In x l -> exists y, f x = inr y) -> exists ys, mapM f l = inr ys.
Proof.
  induction l as [|a r IH]; intros H; simpl.
  - now exists [].
  - destruct (H a (or_introl eq_refl)) as [y ->]. simpl.
    destruct IH as [ys ->]; [intros x Hx; apply H; now right|].
    simpl. now eexists.
Qed.

(** [nx.diameter] returns a number exactly on the connected graphs that
    have a node. *)
Lemma diameter_connected (G : DiGraph) :
  wf_DiGraph G -> node_list G <> [] -> connected (nx_Graph G) ->
  exists d, diameter (nx_Graph G) = ok d.
Proof.
  intros Hwf Hne Hc. unfold diameter, eccentricity.
  destruct (mapM_all_ok (eccentricity_of (nx_Graph G))
              (g_node_list (nx_Graph G))) as [es Hes].
  - intros u Hu. unfold eccentricity_of.
    destruct (shortest_path_length_sound (nx_Graph G) u) as [ND Hreach].
    assert (HL : List.length (single_source_shortest_path_length (nx_Graph G) u)
                 = order (nx_Graph G)).
    { rewrite <- (length_map fst). fold (dict_keys
        (single_source_shortest_path_length (nx_Graph G) u)).
      assert (Ho : order (nx_Graph G) = List.length (node_list G)).
      { unfold order, node_list, dict_keys. simpl. now rewrite length_map. }
      rewrite Ho. apply Nat.le_antisymm.
      - apply (NoDup_incl_length ND). intros x Hx.
        apply (reach_in_nodes G u x Hwf Hu). now apply Hreach.
      - apply NoDup_incl_length; [apply Hwf|].
        intros x Hx. apply shortest_path_length_complete; try assumption.
        now apply Hc. }
    rewrite HL, Nat.eqb_refl. now eexists.
  - rewrite Hes. simpl.
    destruct (mapM_inr _ _ _ Hes) as [HL _].
    destruct es as [|e0 es].
    + exfalso. apply Hne. unfold g_node_list in HL. simpl in HL.
      unfold node_list. destruct (dict_keys (nodes G)); [reflexivity|discriminate].
    + now eexists.
Qed.

Example diameter_of_the_path :
  diameter (nx_Graph (make_graph A_B_C)) = ok 2%nat.
Proof. reflexivity. Qed.

(* ----------------------------------------------------------------- *)
(** ** A graph that is not connected stops the metrics tab *)

Lemma main_guard_true (lib : nx_lib) (fs : filesystem) (k_slider : nat)
    (physics_enabled : bool) (save_error : option string) (ws : list widget)
    (G Gv : DiGraph) (df : DataFrame) :
  run (carregar_e_processar_dados lib fs) = (ws, ok (Some G, Some Gv, Some df)) ->
  truthy G && truthy Gv = true ->
  run (main lib fs k_slider physics_enabled save_error) =
  match tab_metricas lib G ws with
  | (ws1, inl e) => (ws1, inl e)
  | (ws1, inr _) =>
      match tab_centralidade df k_slider ws1 with
      | (ws2, inl e) => (ws2, inl e)
      | (ws2, inr _) => tab_rede G Gv df physics_enabled save_error ws2
      end
  end.
Proof.
  intros Hload Hg. unfold run in *. unfold main.
  unfold bind at 1. rewrite Hload. unfold ok. rewrite Hg.
  unfold bind. destruct (tab_metricas lib G ws) as [ws1 [e|[]]]; reflexivity.
Qed.

Lemma A_B_and_C_not_connected : ~ connected (nx_Graph (make_graph A_B_and_C)).
Proof.
  intros H.
  assert (R : forall x, reach (nx_Graph (make_graph A_B_and_C)) "A" x ->
                        x = "A" \/ x = "B").
  { intros x Hr. induction Hr as [|v w _ IH Hw].
    - now left.
    - destruct IH as [-> | ->]; vm_compute in Hw; intuition. }
  destruct (R "C") as [E|E]; try discriminate.
  apply H; vm_compute; tauto.
Qed.

(** C2, on a graph with a player who never played: the run ends with
    the error of [nx.diameter] after five metrics; the diameter gets no
    marker and the two component counts are not shown. *)
Lemma disconnected_graph_is_not_isolated :
  ~ connected (nx_Graph (make_graph A_B_and_C)) /\
  snd (run (main sample_lib (files (Some A_B_and_C) (Some A_B_C))
              10 true None))
    = raise (NetworkXError not_connected_msg) /\
  metric_names
    (fst (run (main sample_lib (files (Some A_B_and_C) (Some A_B_C))
                 10 true None)))
    = ["Total de Jogadores (Nós)"; "Total de Partidas (Arestas)";
       "Densidade da Rede"; "Coef. de Clustering Global";
       "Assortatividade de Grau"].
Proof.
  split; [exact A_B_and_C_not_connected|].
  split; vm_compute; reflexivity.
Qed.

(** C2, as the script has it.  When the loaded full graph passes the
    guard and its undirected graph is not connected, [nx.diameter]
    raises [NetworkXError] and nothing catches it: the run of the script
    is the run of the metrics tab up to that point.  Node count, edge
    count and density are on the page, clustering and assortativity too
    when their own calls return, and then the run ends with the error:
    no diameter entry, no component counts, no ranking, no network. *)
Theorem disconnected_graph_ends_the_run (lib : nx_lib) (fs : filesystem)
    (k_slider : nat) (physics_enabled : bool) (save_error : option string) (ws : list widget)
    (G Gv : DiGraph) (df : DataFrame) :
  run (carregar_e_processar_dados lib fs) = (ws, ok (Some G, Some Gv, Some df)) ->
  truthy G && truthy Gv = true ->
  ~ connected (nx_Graph G) ->
  diameter (nx_Graph G) = raise (NetworkXError not_connected_msg) /\
  run (main lib fs k_slider physics_enabled save_error) =
    let first3 :=
      [st_metric "Total de Jogadores (Nós)" (Count (number_of_nodes G));
       st_metric "Total de Partidas (Arestas)" (Count (number_of_edges G));
       st_metric "Densidade da Rede" (Number (density G))] in
    match average_clustering lib (nx_Graph G) with
    | inl e => (ws ++ first3, inl e)
    | inr c =>
        let m4 := st_metric "Coef. de Clustering Global" (Number c) in
        match degree_assortativity_coefficient lib (nx_Graph G) with
        | inl e => (ws ++ first3 ++ [m4], inl e)
        | inr a =>
            (ws ++ first3 ++
             [m4; st_metric "Assortatividade de Grau" (Number a)],
             raise (NetworkXError not_connected_msg))
        end
    end.
Proof.
  intros Hload Hg Hnc.
  assert (Hd : diameter (nx_Graph G) = raise (NetworkXError not_connected_msg)).
  { apply carregar_inv in Hload as [docf [_ [_ [_ [-> _]]]]].
    apply diameter_not_connected; [apply make_graph_wf | assumption]. }
  split; [assumption|].
  rewrite (main_guard_true lib fs k_slider physics_enabled save_error ws G Gv df
             Hload Hg).
  rewrite tab_metricas_eq. cbv zeta. rewrite Hd.
  destruct (average_clustering lib (nx_Graph G)) as [e|c]; [reflexivity|].
  destruct (degree_assortativity_coefficient lib (nx_Graph G)) as [e|a];
    reflexivity.
Qed.

Lemma disconnected_graph_ends_the_run_witness :
  diameter (nx_Graph (make_graph A_B_and_C))
    = raise (NetworkXError not_connected_msg) /\
  run (main sample_lib (files (Some A_B_and_C) (Some A_B_C)) 10 true None) =
    ([] ++
     [st_metric "Total de Jogadores (Nós)" (Count 3);
      st_metric "Total de Partidas (Arestas)" (Count 1);
      st_metric "Densidade da Rede" (Number (density (make_graph A_B_and_C)))]
     ++ [st_metric "Coef. de Clustering Global" (Number 0);
         st_metric "Assortatividade de Grau" (Number 0)],
     raise (NetworkXError not_connected_msg)).
Proof.
  apply (disconnected_graph_ends_the_run sample_lib
           (files (Some A_B_and_C) (Some A_B_C)) 10 true None []
           (make_graph A_B_and_C) (make_graph A_B_C) table_A_B_and_C).
  - vm_compute. reflexivity.
  - vm_compute. reflexivity.
  - exact A_B_and_C_not_connected.
Defined.

(* ----------------------------------------------------------------- *)
(** ** Node size *)

Lemma Qlt_bool_true (a b : Q) : Qlt_bool a b = true -> a < b.
Proof.
  unfold Qlt_bool. intros H. apply negb_true_iff in H.
  apply Qnot_le_lt. intros Hle. apply Qle_bool_iff in Hle. congruence.
Qed.

Lemma Qlt_bool_false (a b : Q) : Qlt_bool a b = false -> b <= a.
Proof.
  unfold Qlt_bool. intros H. apply negb_false_iff in H.
  now apply Qle_bool_iff.
Qed.

Lemma py_max_ge_init (r : list Q) : forall x, x <= py_max x r.
Proof.
  unfold py_max. induction r as [|y r IH]; intros x; simpl.
  - apply Qle_refl.
  - destruct (Qlt_bool x y) eqn:E.
    + apply Qle_trans with y; [|apply IH].
      apply Qlt_le_weak. now apply Qlt_bool_true.
    + apply IH.
Qed.

Lemma py_max_ge (r : list Q) : forall x v, In v r -> v <= py_max x r.
Proof.
  induction r as [|y r IH]; intros x v Hv; [destruct Hv|].
  unfold py_max in *. simpl. destruct Hv as [->|Hv].
  - destruct (Qlt_bool x v) eqn:E.
    + apply (py_max_ge_init r v).
    + apply Qle_trans with x; [now apply Qlt_bool_false|].
      apply (py_max_ge_init r x).
  - now apply IH.
Qed.

Lemma py_max_In (r : list Q) : forall x, In (py_max x r) (x :: r).
Proof.
  unfold py_max. induction r as [|y r IH]; intros x; simpl.
  - now left.
  - destruct (Qlt_bool x y).
    + right. apply (IH y).
    + destruct (IH x) as [H|H]; [now left | right; now right].
Qed.

Lemma palette_lookup (c : Z) :
  list_index palette (c mod Z.of_nat (List.length palette)) =
  ok (nth (Z.to_nat (c mod 8)) palette "") /\
  nth_error palette (Z.to_nat (c mod 8)) =
  Some (nth (Z.to_nat (c mod 8)) palette "").
Proof.
  change (Z.of_nat (List.length palette)) with 8%Z.
  pose proof (Z.mod_pos_bound c 8 eq_refl) as Hb.
  assert (Hc : (c mod 8 = 0 \/ c mod 8 = 1 \/ c mod 8 = 2 \/ c mod 8 = 3 \/
                c mod 8 = 4 \/ c mod 8 = 5 \/ c mod 8 = 6 \/ c mod 8 = 7)%Z)
    by lia.
  repeat (destruct Hc as [Hc|Hc]; [rewrite Hc; split; reflexivity|]).
  rewrite Hc. split; reflexivity.
Qed.

Lemma style_node_ok (G : DiGraph) (scores : dict Q) (m : Q) (node : string) :
  In node (node_list G) -> ~ m == 0 ->
  style_node G scores m node = ok (styled_node G scores m node).
Proof.
  intros Hin Hm. unfold style_node, styled_node, community_id_of.
  apply dict_get_In in Hin as [attrs Ha]. rewrite Ha. simpl rbind.
  destruct (palette_lookup
              (match community attrs with Some c => c | None => 0%Z end))
    as [Hp _].
  change (Z.of_nat (List.length palette)) with 8%Z in Hp.
  rewrite Hp. simpl rbind. unfold py_div.
  destruct (Qeq_bool m 0) eqn:E.
  - apply Qeq_bool_iff in E. contradiction.
  - reflexivity.
Qed.

(** C3, on a table whose eigenvector scores are all zero: the maximum
    is 0, not 1, and the size computation raises. *)
Lemma zero_maximum_divides_by_zero :
  max_eigenvector_of (eigenvector_scores_of zero_table) = 0 /\
  style_node (make_graph only_A) (eigenvector_scores_of zero_table)
    (max_eigenvector_of (eigenvector_scores_of zero_table)) "A"
    = raise ZeroDivisionError /\
  build_render_set (make_graph only_A) (make_graph only_A) zero_table true
    = raise ZeroDivisionError.
Proof.
  repeat split; vm_compute; reflexivity.
Qed.

(** C3, as the script has it.  The maximum is taken as 1.0 only when
    the table has no row; otherwise it is the largest eigenvector score
    of the whole table.  For a node of the full graph the size is
    [10 + (eigenvector / max) * 40] whenever that maximum is not zero. *)
Theorem node_size_defined_when_max_nonzero (G_completo : DiGraph)
    (centrality_df : DataFrame) (node : string) :
  In node (node_list G_completo) ->
  ~ max_eigenvector_of (eigenvector_scores_of centrality_df) == 0 ->
  max_eigenvector_of [] = 1 /\
  (eigenvector_scores_of centrality_df = [] \/
   In (max_eigenvector_of (eigenvector_scores_of centrality_df))
      (dict_values (eigenvector_scores_of centrality_df)) /\
   forall v, In v (dict_values (eigenvector_scores_of centrality_df)) ->
             v <= max_eigenvector_of (eigenvector_scores_of centrality_df)) /\
  exists n,
    style_node G_completo (eigenvector_scores_of centrality_df)
      (max_eigenvector_of (eigenvector_scores_of centrality_df)) node = ok n /\
    size n =
      10 + (dict_get_default (eigenvector_scores_of centrality_df) node 0 /
            max_eigenvector_of (eigenvector_scores_of centrality_df)) * 40.
Proof.
  intros Hin Hm. split; [reflexivity|]. split.
  - unfold max_eigenvector_of.
    destruct (eigenvector_scores_of centrality_df) as [|[k x] r];
      [now left | right]. simpl. split.
    + apply py_max_In.
    + intros v [<-|Hv]; [apply py_max_ge_init | now apply py_max_ge].
  - eexists. split; [now apply style_node_ok | reflexivity].
Qed.

Lemma node_size_defined_when_max_nonzero_witness :
  max_eigenvector_of [] = 1 /\
  (eigenvector_scores_of table_A_B_C = [] \/
   In (max_eigenvector_of (eigenvector_scores_of table_A_B_C))
      (dict_values (eigenvector_scores_of table_A_B_C)) /\
   forall v, In v (dict_values (eigenvector_scores_of table_A_B_C)) ->
             v <= max_eigenvector_of (eigenvector_scores_of table_A_B_C)) /\
  exists n,
    style_node (make_graph A_B_C) (eigenvector_scores_of table_A_B_C)
      (max_eigenvector_of (eigenvector_scores_of table_A_B_C)) "B" = ok n /\
    size n =
      10 + (dict_get_default (eigenvector_scores_of table_A_B_C) "B" 0 /
            max_eigenvector_of (eigenvector_scores_of table_A_B_C)) * 40.
Proof.
  apply (node_size_defined_when_max_nonzero (make_graph A_B_C) table_A_B_C "B").
  - vm_compute. tauto.
  - vm_compute. discriminate.
Defined.

(* ----------------------------------------------------------------- *)
(** ** The render set *)

Lemma add_nodes_ok (G : DiGraph) (scores : dict Q) (m : Q) :
  ~ m == 0 ->
  forall view_nodes net,
    NoDup view_nodes ->
    (forall n, In n view_nodes -> In n (node_list G)) ->
    (forall n, In n view_nodes -> ~ In n (net_ids net)) ->
    add_nodes G scores m view_nodes net =
    ok {| physics := physics net;
          net_nodes := net_nodes net ++ map (styled_node G scores m) view_nodes;
          net_edges := net_edges net |}.
Proof.
  intros Hm. induction view_nodes as [|v r IH]; intros net ND Hsub Hfresh; simpl.
  - rewrite app_nil_r. now destruct net.
  - rewrite (style_node_ok G scores m v) by (try apply Hsub; auto; now left).
    simpl rbind. inversion ND as [|? ? Hv NDr]; subst.
    assert (Hadd : net_add_node net (styled_node G scores m v) =
                   {| physics := physics net;
                      net_nodes := net_nodes net ++ [styled_node G scores m v];
                      net_edges := net_edges net |}).
    { unfold net_add_node. simpl n_id.
      assert (E : mem_string v (net_ids net) = false).
      { apply mem_string_false. apply Hfresh. now left. }
      now rewrite E. }
    rewrite Hadd, IH; simpl.
    + now rewrite <- app_assoc.
    + assumption.
    + intros n Hn. apply Hsub. now right.
    + intros n Hn. unfold net_ids. simpl. rewrite map_app, in_app_iff. simpl.
      intros [H|[H|[]]].
      * apply (Hfresh n); [now right | exact H].
      * subst n. contradiction.
Qed.

Lemma add_edges_ok (es : list (string * string)) :
  forall net,
    (forall e, In e es ->
       In (fst e) (net_ids net) /\ In (snd e) (net_ids net)) ->
    add_edges es net =
    ok {| physics := physics net;
          net_nodes := net_nodes net;
          net_edges := net_edges net ++ es |}.
Proof.
  induction es as [|e r IH]; intros net H; simpl.
  - rewrite app_nil_r. now destruct net.
  - unfold net_add_edge.
    destruct (H e (or_introl eq_refl)) as [H1 H2].
    apply mem_string_In in H1, H2. rewrite H1, H2. simpl.
    rewrite IH; simpl.
    + now rewrite <- app_assoc.
    + intros e' He'. apply H. now right.
Qed.

Lemma edge_view_In (G : DiGraph) (e : string * string) :
  In e (edge_view G) ->
  exists e', In e' (edges G) /\ e = (src e', dst e').
Proof.
  unfold edge_view. intros H.
  apply in_flat_map in H as [u [_ H]].
  apply in_flat_map in H as [v [_ H]].
  apply in_map_iff in H as [e' [<- H]].
  apply filter_In in H as [H _]. apply filter_In in H as [H _].
  now exists e'.
Qed.

Lemma styled_node_ids (G : DiGraph) (scores : dict Q) (m : Q)
    (l : list string) :
  map n_id (map (styled_node G scores m) l) = l.
Proof.
  rewrite map_map. simpl. apply map_id.
Qed.

Lemma build_render_set_ok (docv : graphml) (G : DiGraph) (df : DataFrame)
    (physics_enabled : bool) :
  (forall n, In n (node_list (make_graph docv)) -> In n (node_list G)) ->
  ~ max_eigenvector_of (eigenvector_scores_of df) == 0 ->
  build_render_set (make_graph docv) G df physics_enabled =
  ok {| physics := physics_enabled;
        net_nodes :=
          map (styled_node G (eigenvector_scores_of df)
                 (max_eigenvector_of (eigenvector_scores_of df)))
              (node_list (make_graph docv));
        net_edges := edge_view (make_graph docv) |}.
Proof.
  intros Hsub Hm. unfold build_render_set.
  destruct (make_graph_wf docv) as [ND Hed].
  rewrite add_nodes_ok; try assumption; [|simpl; tauto].
  simpl rbind. rewrite add_edges_ok; [reflexivity|].
  intros e He. apply edge_view_In in He as [e' [He' ->]].
  unfold net_ids. simpl. rewrite styled_node_ids. now apply Hed.
Qed.




(* ----------------------------------------------------------------- *)
(** ** The centrality table *)

Lemma degree_centrality_keys (G : Graph) :
  dict_keys (degree_centrality G) = g_node_list G.
Proof.
  unfold degree_centrality. destruct (order G <=? 1)%nat; apply dict_keys_map.
Qed.

Lemma dict_values_length {V} (d : dict V) :
  List.length (dict_values d) = List.length (dict_keys d).
Proof.
  unfold dict_values, dict_keys. now rewrite !length_map.
Qed.

Lemma pd_DataFrame_ok (j : list string) (d c b e : list Q) (df : DataFrame) :
  pd_DataFrame j d c b e = ok df ->
  Jogador df = j /\
  forall m, List.length (column df m) = List.length j.
Proof.
  unfold pd_DataFrame.
  destruct (Nat.eqb_spec (List.length d) (List.length j)) as [Hd|]; simpl;
    [|discriminate].
  destruct (Nat.eqb_spec (List.length c) (List.length j)) as [Hc|]; simpl;
    [|discriminate].
  destruct (Nat.eqb_spec (List.length b) (List.length j)) as [Hb|]; simpl;
    [|discriminate].
  destruct (Nat.eqb_spec (List.length e) (List.length j)) as [He|]; simpl;
    [|discriminate].
  intros H. injection H as <-. simpl. split; [reflexivity|].
  intros []; assumption.
Qed.

Lemma compute_centralities_ok (lib : nx_lib) (G : DiGraph) (df : DataFrame) :
  compute_centralities lib G = ok df ->
  Jogador df = node_list G /\
  forall m, List.length (column df m) = number_of_nodes G.
Proof.
  unfold compute_centralities.
  destruct (closeness_centrality lib (nx_Graph G)) as [?|clo];
    [discriminate|].
  destruct (betweenness_centrality lib (nx_Graph G)) as [?|btw];
    [discriminate|].
  destruct (eigenvector_centrality_numpy lib (nx_Graph G)) as [?|eig];
    [discriminate|].
  simpl rbind. intros H. apply pd_DataFrame_ok in H as [HJ HL].
  split; [exact HJ|].
  intros m. rewrite HL. unfold g_node_list, nx_Graph, number_of_nodes. simpl.
  unfold dict_keys. apply length_map.
Qed.

(** Loading does return a table when both files are there and the three
    library calls answer with one score per node. *)
Lemma load_returns_table (lib : nx_lib) (fs : filesystem)
    (docf docv : graphml) (clo btw eig : dict Q) :
  fs rede_completa = Some docf ->
  fs rede_visualizacao = Some docv ->
  closeness_centrality lib (nx_Graph (make_graph docf)) = ok clo ->
  betweenness_centrality lib (nx_Graph (make_graph docf)) = ok btw ->
  eigenvector_centrality_numpy lib (nx_Graph (make_graph docf)) = ok eig ->
  dict_keys clo = node_list (make_graph docf) ->
  dict_keys btw = node_list (make_graph docf) ->
  dict_keys eig = node_list (make_graph docf) ->
  run (carregar_e_processar_dados lib fs) =
  ([], ok (Some (make_graph docf), Some (make_graph docv),
           Some {| Jogador := node_list (make_graph docf);
                   Degree := dict_values
                               (degree_centrality (nx_Graph (make_graph docf)));
                   Closeness := dict_values clo;
                   Betweenness := dict_values btw;
                   Eigenvector := dict_values eig |})).
Proof.
  intros Hf Hv Hc Hb He Kc Kb Ke. unfold run.
  rewrite (carregar_present lib fs [] docf docv Hf Hv).
  unfold compute_centralities. rewrite Hc, Hb, He. simpl rbind.
  unfold pd_DataFrame.
  rewrite !dict_values_length, degree_centrality_keys, Kc, Kb, Ke.
  assert (E : g_node_list (nx_Graph (make_graph docf))
              = node_list (make_graph docf)) by reflexivity.
  rewrite E, Nat.eqb_refl. reflexivity.
Qed.

(** C5. Whenever loading returns a table, the table has one row per
    node of the full graph: as many rows as the graph has nodes, the
    [Jogador] column is the node list of the graph, in order and without
    repetition, and every score column has that length. *)
Theorem centrality_table_one_row_per_node (lib : nx_lib) (fs : filesystem)
    (ws : list widget) (G_completo G_visualizacao : DiGraph)
    (centrality_df : DataFrame) :
  run (carregar_e_processar_dados lib fs) =
    (ws, ok (Some G_completo, Some G_visualizacao, Some centrality_df)) ->
  row_count centrality_df = number_of_nodes G_completo /\
  Jogador centrality_df = node_list G_completo /\
  NoDup (Jogador centrality_df) /\
  (forall n, In n (node_list G_completo) <-> In n (Jogador centrality_df)) /\
  (forall m, List.length (column centrality_df m) = row_count centrality_df).
Proof.
  intros H. apply carregar_inv in H as [docf [_ [_ [_ [-> [_ [Hc _]]]]]]].
  apply compute_centralities_ok in Hc as [HJ HL].
  assert (HR : row_count centrality_df = number_of_nodes (make_graph docf)).
  { unfold row_count, number_of_nodes. rewrite HJ.
    unfold node_list, dict_keys. apply length_map. }
  split; [exact HR|]. split; [exact HJ|]. split.
  - rewrite HJ. apply make_graph_wf.
  - split.
    + intros n. now rewrite HJ.
    + intros m. now rewrite HL, HR.
Qed.

Lemma centrality_table_one_row_per_node_witness :
  row_count table_A_B_C = number_of_nodes (make_graph A_B_C) /\
  Jogador table_A_B_C = node_list (make_graph A_B_C) /\
  NoDup (Jogador table_A_B_C) /\
  (forall n, In n (node_list (make_graph A_B_C)) <-> In n (Jogador table_A_B_C)) /\
  (forall m, List.length (column table_A_B_C m) = row_count table_A_B_C).
Proof.
  apply (centrality_table_one_row_per_node sample_lib
           (files (Some A_B_C) (Some only_A)) []
           (make_graph A_B_C) (make_graph only_A) table_A_B_C).
  vm_compute. reflexivity.
Defined.





(* ----------------------------------------------------------------- *)
(** ** Degree centrality *)

Lemma Qnat_le (a b : nat) : (a <= b)%nat -> Qnat a <= Qnat b.
Proof.
  intros H. unfold Qnat. rewrite <- Zle_Qle. lia.
Qed.

Lemma Qnat_pos (a : nat) : (1 <= a)%nat -> 0 < Qnat a.
Proof.
  intros H. unfold Qnat. change 0 with (inject_Z 0). rewrite <- Zlt_Qlt. lia.
Qed.

Lemma degree_without_loop (G : DiGraph) (n : string) :
  wf_DiGraph G -> In n (node_list G) ->
  ~ In n (neighbors (nx_Graph G) n) ->
  (degree (nx_Graph G) n <= number_of_nodes G - 1)%nat.
Proof.
  intros Hwf Hn Hloop. unfold degree.
  apply mem_string_false in Hloop. rewrite Hloop, Nat.add_0_r.
  apply mem_string_false in Hloop.
  assert (Hincl : incl (neighbors (nx_Graph G) n)
                       (remove string_dec n (node_list G))).
  { intros w Hw. apply in_in_remove.
    - intros ->. contradiction.
    - exact (neighbors_closed G n w Hwf Hw). }
  pose proof (NoDup_incl_length (neighbors_NoDup G n) Hincl) as H1.
  pose proof (remove_length_lt string_dec (node_list G) n Hn) as H2.
  assert (H3 : List.length (node_list G) = number_of_nodes G).
  { unfold node_list, dict_keys, number_of_nodes. apply length_map. }
  lia.
Qed.

(** C8, on a graph with a self-loop: A beat A and A beat B, so A has
    degree 3 among 2 nodes and its degree centrality is 3. *)
Lemma self_loop_degree_centrality_above_one :
  (2 <= number_of_nodes (make_graph A_A_B))%nat /\
  dict_get (degree_centrality (nx_Graph (make_graph A_A_B))) "A" = Some 3 /\
  ~ 3 <= 1.
Proof.
  split; [vm_compute; lia|]. split; [vm_compute; reflexivity|].
  intros H. vm_compute in H. now apply H.
Qed.

(** C8, as networkx has it.  For a loaded graph with at least two
    nodes, the degree centrality of a node is its degree in the
    undirected graph (a self-loop counts twice) divided by
    [node_count - 1]; it is never negative, and it is at most 1 when no
    edge of the graph is a self-loop.  On the path A - B - C the values
    are 1/2, 1 and 1/2. *)
Theorem degree_centrality_is_normalised_degree (doc : graphml) (n : string) :
  (2 <= number_of_nodes (make_graph doc))%nat ->
  In n (node_list (make_graph doc)) ->
  (exists q,
     dict_get (degree_centrality (nx_Graph (make_graph doc))) n = Some q /\
     q == Qnat (degree (nx_Graph (make_graph doc)) n) /
          (Qnat (number_of_nodes (make_graph doc)) - 1) /\
     0 <= q /\
     ((forall e, In e (edges (make_graph doc)) -> src e <> dst e) -> q <= 1)) /\
  dict_keys (degree_centrality (nx_Graph (make_graph A_B_C))) = ["A"; "B"; "C"] /\
  Forall2 Qeq (dict_values (degree_centrality (nx_Graph (make_graph A_B_C))))
    [1 # 2; 1; 1 # 2].
Proof.
  intros Hn Hin. split.
  - set (G := make_graph doc) in *.
    assert (Ho : order (nx_Graph G) = number_of_nodes G) by reflexivity.
    unfold degree_centrality. rewrite Ho.
    destruct (Nat.leb_spec (number_of_nodes G) 1) as [Hle|_]; [lia|].
    rewrite (dict_get_map
               (fun n0 => Qnat (degree (nx_Graph G) n0) *
                          (1 / (Qnat (number_of_nodes G) - 1)))
               (g_node_list (nx_Graph G)) n Hin).
    eexists. split; [reflexivity|].
    assert (Hk : Qnat (number_of_nodes G) - 1 == Qnat (number_of_nodes G - 1)).
    { symmetry. apply Qnat_pred. lia. }
    assert (Hpos : 0 < Qnat (number_of_nodes G - 1)) by (apply Qnat_pos; lia).
    assert (Heq : Qnat (degree (nx_Graph G) n) *
                  (1 / (Qnat (number_of_nodes G) - 1)) ==
                  Qnat (degree (nx_Graph G) n) /
                  (Qnat (number_of_nodes G) - 1)).
    { unfold Qdiv. now rewrite Qmult_1_l. }
    split; [exact Heq|]. rewrite Heq, Hk. split.
    + apply Qle_shift_div_l; [assumption|]. rewrite Qmult_0_l.
      apply (Qnat_le 0). lia.
    + intros Hloops. apply Qle_shift_div_r; [assumption|].
      rewrite Qmult_1_l. apply Qnat_le.
      apply degree_without_loop; [apply make_graph_wf | assumption |].
      intros Hself.
      apply (neighbors_In _ _ _ (make_graph_wf doc)) in Hself
        as [_ [e [He Hcase]]].
      apply (Hloops e He). destruct Hcase as [[-> ->]|[-> ->]]; reflexivity.
  - split; [vm_compute; reflexivity|].
    vm_compute. repeat constructor.
Qed.

Lemma degree_centrality_is_normalised_degree_witness :
  (exists q,
     dict_get (degree_centrality (nx_Graph (make_graph A_B_C))) "B" = Some q /\
     q == Qnat (degree (nx_Graph (make_graph A_B_C)) "B") /
          (Qnat (number_of_nodes (make_graph A_B_C)) - 1) /\
     0 <= q /\
     ((forall e, In e (edges (make_graph A_B_C)) -> src e <> dst e) -> q <= 1)) /\
  dict_keys (degree_centrality (nx_Graph (make_graph A_B_C))) = ["A"; "B"; "C"] /\
  Forall2 Qeq (dict_values (degree_centrality (nx_Graph (make_graph A_B_C))))
    [1 # 2; 1; 1 # 2].
Proof.
  apply (degree_centrality_is_normalised_degree A_B_C "B").
  - vm_compute. lia.
  - vm_compute. tauto.
Defined.

(* ----------------------------------------------------------------- *)
(** ** Rankings *)

Lemma insert_desc_perm (x : string * Q) (l : list (string * Q)) :
  Permutation (insert_desc x l) (x :: l).
Proof.
  induction l as [|y r IH]; simpl.
  - reflexivity.
  - destruct (Qlt_bool (snd x) (snd y)).
    + rewrite IH. apply perm_swap.
    + reflexivity.
Qed.

Lemma sort_values_desc_perm (rows : list (string * Q)) :
  Permutation (sort_values_desc rows) rows.
Proof.
  induction rows as [|x r IH]; simpl.
  - reflexivity.
  - rewrite insert_desc_perm. now constructor.
Qed.

Lemma insert_desc_sorted (x : string * Q) (l : list (string * Q)) :
  StronglySorted not_below l -> StronglySorted not_below (insert_desc x l).
Proof.
  induction l as [|y r IH]; intros Hs; simpl.
  - repeat constructor.
  - inversion Hs as [|? ? Hr Hy]; subst.
    destruct (Qlt_bool (snd x) (snd y)) eqn:E.
    + constructor; [now apply IH|].
      rewrite (insert_desc_perm x r).
      constructor; [|assumption].
      unfold not_below. apply Qlt_le_weak. now apply Qlt_bool_true.
    + apply Qlt_bool_false in E. constructor; [assumption|].
      constructor; [exact E|].
      eapply Forall_impl; [|exact Hy].
      intros z Hz. unfold not_below in *. now apply Qle_trans with (snd y).
Qed.

Lemma sort_values_desc_sorted (rows : list (string * Q)) :
  StronglySorted not_below (sort_values_desc rows).
Proof.
  induction rows as [|x r IH]; simpl.
  - constructor.
  - now apply insert_desc_sorted.
Qed.







Example top_2_by_degree_on_the_path :
  top_k table_A_B_C ByDegree 2 = [("B", 2 # 2); ("A", 1 # 2)].
Proof. reflexivity. Qed.

(** The scenario of the specification: a view of one node that carries
    no community in the full graph. *)
Example single_node_without_community :
  option_map (fun net => map color (net_nodes net))
    (match build_render_set (make_graph only_A) (make_graph only_A)
             unit_table true with
     | inr net => Some net
     | inl _ => None
     end) = Some ["#e6194b"] /\
  nth_error palette 0 = Some "#e6194b".
Proof. split; reflexivity. Qed.

(* ================================================================= *)
(** * Further properties of the script *)

(* ----------------------------------------------------------------- *)
(** ** The score dictionary of the network tab *)

Lemma dict_set_fresh {V} (d : dict V) (k : string) (v : V) :
  ~ In k (dict_keys d) -> dict_set d k v = d ++ [(k, v)].
Proof.
  induction d as [|[k' v'] r IH]; simpl; intros H.
  - reflexivity.
  - destruct (String.eqb_spec k k') as [->|Hne].
    + exfalso. apply H. now left.
    + rewrite IH; [reflexivity|]. intros Hin. apply H. now right.
Qed.

Lemma fold_dict_set_NoDup {V} (l : list (string * V)) :
  forall d, NoDup (dict_keys d ++ map fst l) ->
    fold_left (fun d kv => dict_set d (fst kv) (snd kv)) l d = d ++ l.
Proof.
  induction l as [|[k v] r IH]; intros d H; simpl.
  - now rewrite app_nil_r.
  - simpl in H. pose proof (NoDup_remove_2 _ _ _ H) as Hk.
    rewrite dict_set_fresh.
    + rewrite IH.
      * now rewrite <- app_assoc.
      * unfold dict_keys. rewrite map_app. simpl. rewrite <- app_assoc. exact H.
    + intros Hin. apply Hk. apply in_or_app. now left.
Qed.

Lemma dict_of_pairs_NoDup_id {V} (l : list (string * V)) :
  NoDup (map fst l) -> dict_of_pairs l = l.
Proof.
  intros H. unfold dict_of_pairs. now rewrite fold_dict_set_NoDup.
Qed.

Lemma combine_fst {A B} (a : list A) (b : list B) :
  List.length b = List.length a -> map fst (combine a b) = a.
Proof.
  revert b. induction a as [|x r IH]; intros [|y b] H; simpl in *;
    try reflexivity; try discriminate.
  f_equal. apply IH. now injection H.
Qed.

Lemma combine_snd {A B} (a : list A) (b : list B) :
  List.length b = List.length a -> map snd (combine a b) = b.
Proof.
  revert b. induction a as [|x r IH]; intros [|y b] H; simpl in *;
    try reflexivity; try discriminate.
  f_equal. apply IH. now injection H.
Qed.

Lemma dict_get_combine {V} (ks : list string) (vs : list V) (i : nat)
    (k : string) :
  NoDup ks -> nth_error ks i = Some k ->
  dict_get (combine ks vs) k =
  if (i <? List.length vs)%nat then nth_error vs i else None.
Proof.
  revert vs i. induction ks as [|a r IH]; intros vs i ND Hi.
  - destruct i; discriminate.
  - inversion ND as [|? ? Ha NDr]; subst. destruct vs as [|v vs].
    + simpl. now destruct i.
    + destruct i as [|i]; simpl in *.
      * injection Hi as ->. now rewrite String.eqb_refl.
      * destruct (String.eqb_spec k a) as [->|Hne].
        -- exfalso. apply Ha. eapply nth_error_In; eassumption.
        -- now apply IH.
Qed.

Lemma loaded_table_shape (lib : nx_lib) (fs : filesystem) (ws : list widget)
    (G Gv : DiGraph) (df : DataFrame) :
  run (carregar_e_processar_dados lib fs) = (ws, ok (Some G, Some Gv, Some df)) ->
  ws = [] /\ wf_DiGraph G /\ wf_DiGraph Gv /\
  Jogador df = node_list G /\
  forall m, List.length (column df m) = List.length (Jogador df).
Proof.
  intros H. apply carregar_inv in H as [docf [docv [_ [_ [-> [-> [Hc ->]]]]]]].
  apply compute_centralities_ok in Hc as [HJ HL].
  split; [reflexivity|]. split; [apply make_graph_wf|].
  split; [apply make_graph_wf|]. split; [exact HJ|].
  intros m. rewrite HL, HJ. unfold number_of_nodes, node_list, dict_keys.
  now rewrite length_map.
Qed.

(** X8. For a table returned by the loader, the dictionary the sizes are
    read from holds, for the player of each row, the eigenvector score of
    that row; a name that is not in the table reads as 0. *)
Theorem eigenvector_scores_are_the_rows (lib : nx_lib) (fs : filesystem)
    (ws : list widget) (G Gv : DiGraph) (df : DataFrame) :
  run (carregar_e_processar_dados lib fs) = (ws, ok (Some G, Some Gv, Some df)) ->
  eigenvector_scores_of df = combine (Jogador df) (Eigenvector df) /\
  (forall i player,
     nth_error (Jogador df) i = Some player ->
     exists score,
       nth_error (Eigenvector df) i = Some score /\
       dict_get_default (eigenvector_scores_of df) player 0 = score) /\
  (forall name, ~ In name (node_list G) ->
     dict_get_default (eigenvector_scores_of df) name 0 = 0).
Proof.
  intros H. apply loaded_table_shape in H as [_ [[ND _] [_ [HJ HL]]]].
  pose proof (HL ByEigenvector) as HE. simpl in HE.
  assert (NDJ : NoDup (Jogador df)) by now rewrite HJ.
  assert (E : eigenvector_scores_of df = combine (Jogador df) (Eigenvector df)).
  { unfold eigenvector_scores_of. apply dict_of_pairs_NoDup_id.
    now rewrite combine_fst. }
  split; [exact E|]. split.
  - intros i player Hi. unfold dict_get_default. rewrite E.
    rewrite (dict_get_combine _ _ i player) by assumption.
    assert (Hlt : (i < List.length (Jogador df))%nat)
      by (apply nth_error_Some; congruence).
    rewrite HE. apply Nat.ltb_lt in Hlt. rewrite Hlt.
    destruct (nth_error (Eigenvector df) i) as [sc|] eqn:En.
    + now exists sc.
    + exfalso. apply nth_error_None in En. apply Nat.ltb_lt in Hlt. lia.
  - intros name Hn. unfold dict_get_default.
    assert (Hnone : dict_get (eigenvector_scores_of df) name = None).
    { apply dict_get_None. rewrite E. unfold dict_keys.
      rewrite combine_fst by assumption. now rewrite HJ. }
    now rewrite Hnone.
Qed.

Lemma eigenvector_scores_are_the_rows_witness :
  eigenvector_scores_of table_A_B_C
    = combine (Jogador table_A_B_C) (Eigenvector table_A_B_C) /\
  (forall i player,
     nth_error (Jogador table_A_B_C) i = Some player ->
     exists score,
       nth_error (Eigenvector table_A_B_C) i = Some score /\
       dict_get_default (eigenvector_scores_of table_A_B_C) player 0 = score) /\
  (forall name, ~ In name (node_list (make_graph A_B_C)) ->
     dict_get_default (eigenvector_scores_of table_A_B_C) name 0 = 0).
Proof.
  apply (eigenvector_scores_are_the_rows sample_lib
           (files (Some A_B_C) (Some only_A)) []
           (make_graph A_B_C) (make_graph only_A) table_A_B_C).
  vm_compute. reflexivity.
Defined.

(* ----------------------------------------------------------------- *)
(** ** Sizes stay in the pixel range *)

Lemma dict_set_values {V} (d : dict V) (k : string) (x v : V) :
  In v (dict_values (dict_set d k x)) -> In v (dict_values d) \/ v = x.
Proof.
  induction d as [|[k' v'] r IH]; simpl.
  - intros [<-|[]]. now right.
  - destruct (String.eqb k k'); simpl.
    + intros [<-|H]; [now right | left; now right].
    + intros [<-|H]; [left; now left|].
      destruct (IH H) as [H'|H']; [left; now right | now right].
Qed.

Lemma fold_dict_set_values {V} (l : list (string * V)) :
  forall d v,
    In v (dict_values
            (fold_left (fun d kv => dict_set d (fst kv) (snd kv)) l d)) ->
    In v (dict_values d) \/ In v (map snd l).
Proof.
  induction l as [|[k x] r IH]; intros d v H; simpl in *.
  - now left.
  - destruct (IH _ _ H) as [H'|H'].
    + apply dict_set_values in H' as [H'| ->]; [now left | right; now left].
    + right. now right.
Qed.

Lemma eigenvector_scores_values (df : DataFrame) (v : Q) :
  In v (dict_values (eigenvector_scores_of df)) -> In v (Eigenvector df).
Proof.
  intros H. unfold eigenvector_scores_of, dict_of_pairs in H.
  apply fold_dict_set_values in H as [[]|H].
  apply in_map_iff in H as [[k x] [<- H]]. simpl.
  eapply in_combine_r. exact H.
Qed.

Lemma dict_get_value {V} (d : dict V) (k : string) (v : V) :
  dict_get d k = Some v -> In v (dict_values d).
Proof.
  induction d as [|[k' v'] r IH]; simpl; [discriminate|].
  destruct (String.eqb k k').
  - intros H. injection H as ->. now left.
  - intros H. right. now apply IH.
Qed.

Lemma max_eigenvector_bounds (scores : dict Q) :
  (forall v, In v (dict_values scores) -> 0 <= v) ->
  ~ max_eigenvector_of scores == 0 ->
  0 < max_eigenvector_of scores /\
  forall v, In v (dict_values scores) -> v <= max_eigenvector_of scores.
Proof.
  unfold max_eigenvector_of. intros Hpos Hm.
  destruct (dict_values scores) as [|x r].
  - split; [reflexivity | intros v []].
  - split.
    + assert (H0 : 0 <= py_max x r) by (apply Hpos, py_max_In).
      destruct (Qle_lt_or_eq _ _ H0) as [H|H]; [exact H|].
      exfalso. apply Hm. now symmetry.
    + intros v [<-|Hv]; [apply py_max_ge_init | now apply py_max_ge].
Qed.

Lemma size_in_range (e m : Q) :
  0 <= e -> e <= m -> 0 < m ->
  10 <= 10 + (e / m) * 40 /\ 10 + (e / m) * 40 <= 50.
Proof.
  intros H0 H1 Hm.
  assert (A : 0 <= e / m).
  { apply Qle_shift_div_l; [assumption|]. now rewrite Qmult_0_l. }
  assert (B : e / m <= 1).
  { apply Qle_shift_div_r; [assumption|]. now rewrite Qmult_1_l. }
  split; lra.
Qed.

(** X9. When no eigenvector score of the table is negative and the largest
    is not zero, every node of the render set has a size between 10 and
    50; a node that has no row in the table has size 10, and a node whose
    score is the largest has size 50. *)
Theorem node_sizes_between_10_and_50 (docv : graphml) (G_completo : DiGraph)
    (centrality_df : DataFrame) (physics_enabled : bool) :
  (forall n, In n (node_list (make_graph docv)) -> In n (node_list G_completo)) ->
  (forall v, In v (Eigenvector centrality_df) -> 0 <= v) ->
  ~ max_eigenvector_of (eigenvector_scores_of centrality_df) == 0 ->
  exists net,
    build_render_set (make_graph docv) G_completo centrality_df physics_enabled
      = ok net /\
    Forall (fun n =>
      (10 <= size n /\ size n <= 50) /\
      (dict_get (eigenvector_scores_of centrality_df) (n_id n) = None ->
       size n == 10) /\
      (dict_get_default (eigenvector_scores_of centrality_df) (n_id n) 0 ==
       max_eigenvector_of (eigenvector_scores_of centrality_df) ->
       size n == 50))
      (net_nodes net).
Proof.
  intros Hsub Hpos Hm.
  destruct (max_eigenvector_bounds (eigenvector_scores_of centrality_df))
    as [Hgt Hle]; try assumption.
  { intros v Hv. apply Hpos. now apply eigenvector_scores_values. }
  eexists. split; [now apply build_render_set_ok|].
  simpl net_nodes. apply Forall_forall. intros n Hn.
  apply in_map_iff in Hn as [v [<- _]]. unfold styled_node. simpl.
  split; [|split].
  - apply size_in_range; [| |assumption]; unfold dict_get_default;
      destruct (dict_get (eigenvector_scores_of centrality_df) v) as [x|] eqn:E.
    + apply Hpos. apply eigenvector_scores_values.
      eapply dict_get_value; eassumption.
    + apply Qle_refl.
    + apply Hle. eapply dict_get_value; eassumption.
    + now apply Qlt_le_weak.
  - intros Hnone. unfold dict_get_default. rewrite Hnone.
    unfold Qdiv. rewrite Qmult_0_l. lra.
  - intros Heq. rewrite Heq. unfold Qdiv.
    rewrite Qmult_inv_r by assumption. lra.
Qed.

Lemma node_sizes_between_10_and_50_witness :
  exists net,
    build_render_set (make_graph A_B_and_C) (make_graph A_B_C) table_A_B_C true
      = ok net /\
    Forall (fun n =>
      (10 <= size n /\ size n <= 50) /\
      (dict_get (eigenvector_scores_of table_A_B_C) (n_id n) = None ->
       size n == 10) /\
      (dict_get_default (eigenvector_scores_of table_A_B_C) (n_id n) 0 ==
       max_eigenvector_of (eigenvector_scores_of table_A_B_C) ->
       size n == 50))
      (net_nodes net).
Proof.
  apply (node_sizes_between_10_and_50 A_B_and_C (make_graph A_B_C)
           table_A_B_C true).
  - intros n Hn. vm_compute in Hn |- *. exact Hn.
  - intros v Hv. vm_compute in Hv.
    destruct Hv as [<-|[<-|[<-|[]]]]; vm_compute; discriminate.
  - vm_compute. discriminate.
Defined.

(* ----------------------------------------------------------------- *)
(** ** Colours tell communities apart, up to the size of the palette *)

Lemma palette_NoDup : NoDup palette.
Proof.
  unfold palette.
  repeat (constructor; [simpl; intros H; repeat (destruct H as [H|H];
            [discriminate|]); exact H|]).
  constructor.
Qed.

Lemma palette_color_eq (c1 c2 : Z) :
  nth (Z.to_nat (c1 mod 8)) palette "" = nth (Z.to_nat (c2 mod 8)) palette ""
  <-> (c1 mod 8 = c2 mod 8)%Z.
Proof.
  pose proof (Z.mod_pos_bound c1 8 eq_refl) as B1.
  pose proof (Z.mod_pos_bound c2 8 eq_refl) as B2.
  split.
  - intros H.
    assert (E : Z.to_nat (c1 mod 8) = Z.to_nat (c2 mod 8)).
    { apply (proj1 (NoDup_nth palette "") palette_NoDup);
        [simpl; lia | simpl; lia | exact H]. }
    lia.
  - intros ->. reflexivity.
Qed.

(** X10. In the render set every colour is one of the eight of the palette,
    and two nodes have the same colour exactly when their communities
    (0 for a node without one) are equal modulo 8: nodes of one
    community always share a colour, and communities 8 apart collide. *)
Theorem same_color_iff_same_community_mod_8 (docv : graphml)
    (G_completo : DiGraph) (centrality_df : DataFrame) (physics_enabled : bool) :
  (forall n, In n (node_list (make_graph docv)) -> In n (node_list G_completo)) ->
  ~ max_eigenvector_of (eigenvector_scores_of centrality_df) == 0 ->
  exists net,
    build_render_set (make_graph docv) G_completo centrality_df physics_enabled
      = ok net /\
    (forall n, In n (net_nodes net) -> In (color n) palette) /\
    (forall n1 n2, In n1 (net_nodes net) -> In n2 (net_nodes net) ->
       (color n1 = color n2 <->
        (community_id_of G_completo (n_id n1) mod 8 =
         community_id_of G_completo (n_id n2) mod 8)%Z)).
Proof.
  intros Hsub Hm. eexists. split; [now apply build_render_set_ok|].
  simpl net_nodes. split.
  - intros n Hn. apply in_map_iff in Hn as [v [<- _]].
    unfold styled_node. simpl color.
    destruct (palette_lookup (community_id_of G_completo v)) as [_ H].
    eapply nth_error_In. exact H.
  - intros n1 n2 H1 H2.
    apply in_map_iff in H1 as [v1 [<- _]].
    apply in_map_iff in H2 as [v2 [<- _]].
    unfold styled_node. simpl color. simpl n_id. apply palette_color_eq.
Qed.

Lemma same_color_iff_same_community_mod_8_witness :
  exists net,
    build_render_set (make_graph A1_B9) (make_graph A1_B9) table_A1_B9 true
      = ok net /\
    (forall n, In n (net_nodes net) -> In (color n) palette) /\
    (forall n1 n2, In n1 (net_nodes net) -> In n2 (net_nodes net) ->
       (color n1 = color n2 <->
        (community_id_of (make_graph A1_B9) (n_id n1) mod 8 =
         community_id_of (make_graph A1_B9) (n_id n2) mod 8)%Z)).
Proof.
  apply (same_color_iff_same_community_mod_8 A1_B9 (make_graph A1_B9)
           table_A1_B9 true).
  - intros n Hn. exact Hn.
  - vm_compute. discriminate.
Defined.

(* ----------------------------------------------------------------- *)
(** ** Errors of the network tab *)

Lemma style_node_missing (G : DiGraph) (scores : dict Q) (m : Q)
    (node : string) :
  ~ In node (node_list G) ->
  style_node G scores m node = raise (KeyError node).
Proof.
  intros H. unfold style_node.
  apply (dict_get_None (nodes G) node) in H. now rewrite H.
Qed.

Lemma style_node_zero_max (G : DiGraph) (scores : dict Q) (m : Q)
    (node : string) :
  In node (node_list G) -> m == 0 ->
  style_node G scores m node = raise ZeroDivisionError.
Proof.
  intros Hin Hm. unfold style_node.
  apply dict_get_In in Hin as [attrs Ha]. rewrite Ha. simpl rbind.
  destruct (palette_lookup
              (match community attrs with Some c => c | None => 0%Z end))
    as [Hp _].
  change (Z.of_nat (List.length palette)) with 8%Z in Hp.
  rewrite Hp. simpl rbind. unfold py_div.
  apply Qeq_bool_iff in Hm. now rewrite Hm.
Qed.

Lemma add_nodes_missing (G : DiGraph) (scores : dict Q) (m : Q)
    (n : string) (post : list string) :
  ~ m == 0 -> ~ In n (node_list G) ->
  forall pre net,
    (forall x, In x pre -> In x (node_list G)) ->
    add_nodes G scores m (pre ++ n :: post) net = raise (KeyError n).
Proof.
  intros Hm Hn. induction pre as [|a r IH]; intros net Hpre; simpl.
  - now rewrite style_node_missing.
  - rewrite style_node_ok by (try apply Hpre; auto; now left).
    simpl rbind. apply IH. intros x Hx. apply Hpre. now right.
Qed.

(** X12. A node of the view graph that the full graph does not have makes
    the network tab raise [KeyError] for the first such node (the sizes
    being computable): nothing is drawn, not even the nodes before it. *)
Theorem view_node_missing_from_full_graph (G_visualizacao G_completo : DiGraph)
    (centrality_df : DataFrame) (physics_enabled : bool) (save_error : option string)
    (ws : list widget) (pre post : list string) (n : string) :
  node_list G_visualizacao = pre ++ n :: post ->
  (forall x, In x pre -> In x (node_list G_completo)) ->
  ~ In n (node_list G_completo) ->
  ~ max_eigenvector_of (eigenvector_scores_of centrality_df) == 0 ->
  build_render_set G_visualizacao G_completo centrality_df physics_enabled
    = raise (KeyError n) /\
  tab_rede G_completo G_visualizacao centrality_df physics_enabled save_error ws
    = (ws, raise (KeyError n)).
Proof.
  intros Hv Hpre Hn Hm.
  assert (B : build_render_set G_visualizacao G_completo centrality_df
                physics_enabled = raise (KeyError n)).
  { unfold build_render_set. rewrite Hv.
    now rewrite add_nodes_missing. }
  split; [exact B|].
  unfold tab_rede, bind, lift. now rewrite B.
Qed.

Lemma view_node_missing_from_full_graph_witness :
  build_render_set (make_graph A_B_C) (make_graph only_A) unit_table true
    = raise (KeyError "B") /\
  tab_rede (make_graph only_A) (make_graph A_B_C) unit_table true None []
    = ([], raise (KeyError "B")).
Proof.
  apply (view_node_missing_from_full_graph (make_graph A_B_C)
           (make_graph only_A) unit_table true None [] ["A"] ["C"] "B").
  - reflexivity.
  - intros x [<-|[]]. vm_compute. tauto.
  - vm_compute. intros [H|[]]. discriminate.
  - vm_compute. discriminate.
Defined.

(** X13. When the largest eigenvector score of a non-empty table is zero,
    the network tab raises [ZeroDivisionError] at the first node of the
    view (a node of the full graph): no network is shown. *)
Theorem zero_maximum_stops_the_network_tab (G_visualizacao G_completo : DiGraph)
    (centrality_df : DataFrame) (physics_enabled : bool) (save_error : option string)
    (ws : list widget) (n : string) (rest : list string) :
  node_list G_visualizacao = n :: rest ->
  In n (node_list G_completo) ->
  max_eigenvector_of (eigenvector_scores_of centrality_df) == 0 ->
  build_render_set G_visualizacao G_completo centrality_df physics_enabled
    = raise ZeroDivisionError /\
  tab_rede G_completo G_visualizacao centrality_df physics_enabled save_error ws
    = (ws, raise ZeroDivisionError).
Proof.
  intros Hv Hn Hm.
  assert (B : build_render_set G_visualizacao G_completo centrality_df
                physics_enabled = raise ZeroDivisionError).
  { unfold build_render_set. rewrite Hv. simpl add_nodes.
    now rewrite style_node_zero_max. }
  split; [exact B|].
  unfold tab_rede, bind, lift. now rewrite B.
Qed.

Lemma zero_maximum_stops_the_network_tab_witness :
  build_render_set (make_graph A_B_C) (make_graph A_B_C) zero_table true
    = raise ZeroDivisionError /\
  tab_rede (make_graph A_B_C) (make_graph A_B_C) zero_table true None []
    = ([], raise ZeroDivisionError).
Proof.
  apply (zero_maximum_stops_the_network_tab (make_graph A_B_C)
           (make_graph A_B_C) zero_table true None [] "A" ["B"; "C"]).
  - reflexivity.
  - vm_compute. tauto.
  - vm_compute. reflexivity.
Defined.

(* ----------------------------------------------------------------- *)
(** ** Every edge of the view is drawn once, with its direction *)

Lemma flat_map_nil_fun {A B} (l : list A) :
  flat_map (fun _ : A => @nil B) l = [].
Proof. induction l; simpl; auto. Qed.

Lemma flat_map_pointwise_eq {A B} (f g : A -> list B) (l : list A) :
  (forall x, In x l -> f x = g x) -> flat_map f l = flat_map g l.
Proof.
  induction l as [|a r IH]; intros H; simpl; [reflexivity|].
  rewrite (H a) by now left. rewrite IH; [reflexivity|].
  intros x Hx. apply H. now right.
Qed.

Lemma flat_map_pointwise_perm {A B} (f g : A -> list B) (l : list A) :
  (forall x, In x l -> Permutation (f x) (g x)) ->
  Permutation (flat_map f l) (flat_map g l).
Proof.
  induction l as [|a r IH]; intros H; simpl; [constructor|].
  apply Permutation_app; [apply H; now left|].
  apply IH. intros x Hx. apply H. now right.
Qed.

Lemma map_flat_map_comm {A B C} (g : B -> C) (h : A -> list B) (l : list A) :
  flat_map (fun v => map g (h v)) l = map g (flat_map h l).
Proof.
  induction l as [|a r IH]; simpl; [reflexivity|].
  now rewrite map_app, IH.
Qed.

Lemma group_by_key_cons {A} (key : A -> string) (a : A) (l : list A)
    (ks : list string) :
  NoDup ks -> In (key a) ks ->
  Permutation
    (flat_map (fun v => filter (fun x => String.eqb (key x) v) (a :: l)) ks)
    (a :: flat_map (fun v => filter (fun x => String.eqb (key x) v) l) ks).
Proof.
  induction ks as [|k ks' IH]; intros ND Hin; [destruct Hin|].
  inversion ND as [|? ? Hk ND']; subst. simpl.
  destruct (String.eqb_spec (key a) k) as [E|E].
  - simpl. constructor. apply Permutation_app_head.
    rewrite (flat_map_pointwise_eq
               (fun v => if String.eqb (key a) v
                         then a :: filter (fun x => String.eqb (key x) v) l
                         else filter (fun x => String.eqb (key x) v) l)
               (fun v => filter (fun x => String.eqb (key x) v) l)).
    + reflexivity.
    + intros v Hv. destruct (String.eqb_spec (key a) v) as [E'|E'].
      * exfalso. apply Hk. congruence.
      * reflexivity.
  - destruct Hin as [Hin|Hin]; [congruence|].
    etransitivity.
    + apply Permutation_app_head. exact (IH ND' Hin).
    + symmetry. apply Permutation_middle.
Qed.

Lemma group_by_key {A} (key : A -> string) (ks : list string) (l : list A) :
  NoDup ks -> (forall a, In a l -> In (key a) ks) ->
  Permutation
    (flat_map (fun v => filter (fun x => String.eqb (key x) v) l) ks) l.
Proof.
  intros ND. induction l as [|a r IH]; intros H.
  - simpl. now rewrite flat_map_nil_fun.
  - rewrite group_by_key_cons by (try apply H; auto; now left).
    constructor. apply IH. intros x Hx. apply H. now right.
Qed.

Lemma edge_view_perm (G : DiGraph) :
  wf_DiGraph G -> Permutation (edge_view G) (edge_pairs G).
Proof.
  intros [ND Hed]. unfold edge_view, edge_pairs.
  etransitivity.
  - apply (flat_map_pointwise_perm _
             (fun u => map (fun e => (src e, dst e))
                         (filter (fun e => String.eqb (src e) u) (edges G)))).
    intros u _. cbv zeta. rewrite map_flat_map_comm.
    apply Permutation_map. apply (group_by_key dst).
    + apply dict_of_pairs_NoDup.
    + intros a Ha. apply dict_of_pairs_In. rewrite map_map. simpl.
      now apply in_map.
  - rewrite map_flat_map_comm. apply Permutation_map.
    apply (group_by_key src); [exact ND|].
    intros a Ha. now apply Hed.
Qed.

(** X11. The edges of the render set are the edges of the view graph, each
    one once and with its direction (a repeated edge is drawn as often as
    the file repeats it). *)
Theorem render_set_draws_every_view_edge (docv : graphml) (G_completo : DiGraph)
    (centrality_df : DataFrame) (physics_enabled : bool) :
  (forall n, In n (node_list (make_graph docv)) -> In n (node_list G_completo)) ->
  ~ max_eigenvector_of (eigenvector_scores_of centrality_df) == 0 ->
  exists net,
    build_render_set (make_graph docv) G_completo centrality_df physics_enabled
      = ok net /\
    Permutation (net_edges net) (edge_pairs (make_graph docv)) /\
    List.length (net_edges net) = number_of_edges (make_graph docv).
Proof.
  intros Hsub Hm. eexists. split; [now apply build_render_set_ok|].
  simpl net_edges.
  pose proof (edge_view_perm (make_graph docv) (make_graph_wf docv)) as P.
  split; [exact P|].
  rewrite (Permutation_length P). unfold edge_pairs, number_of_edges.
  apply length_map.
Qed.

Lemma render_set_draws_every_view_edge_witness :
  exists net,
    build_render_set (make_graph A_A_B) (make_graph A_A_B) unit_table true
      = ok net /\
    Permutation (net_edges net) (edge_pairs (make_graph A_A_B)) /\
    List.length (net_edges net) = number_of_edges (make_graph A_A_B).
Proof.
  apply (render_set_draws_every_view_edge A_A_B (make_graph A_A_B)
           unit_table true).
  - intros n Hn. exact Hn.
  - vm_compute. discriminate.
Defined.

(* ----------------------------------------------------------------- *)
(** ** Tabs as a whole *)

Lemma tab_centralidade_eq (df : DataFrame) (k : nat) (ws : list widget) :
  tab_centralidade df k ws =
  (ws ++ [st_dataframe ByDegree (top_k df ByDegree k);
          st_dataframe ByBetweenness (top_k df ByBetweenness k);
          st_dataframe ByEigenvector (top_k df ByEigenvector k);
          st_dataframe ByCloseness (top_k df ByCloseness k)], ok tt).
Proof.
  unfold tab_centralidade, bind, emit, ok. simpl.
  rewrite <- !app_assoc. reflexivity.
Qed.

Lemma tab_rede_eq (G Gv : DiGraph) (df : DataFrame) (p : bool)
    (s : option string) (ws : list widget) :
  tab_rede G Gv df p s ws =
  match build_render_set Gv G df p with
  | inl e => (ws, inl e)
  | inr net =>
      (ws ++ [match s with
              | None => components_html net
              | Some e => st_error (html_error_msg e)
              end],
       ok tt)
  end.
Proof.
  unfold tab_rede, bind, lift, throw, ret, emit.
  destruct (build_render_set Gv G df p) as [e|net]; [reflexivity|].
  now destruct s.
Qed.

(** X3. The [try] of the loader covers the two reads only: an exception of
    the centrality computation, whatever it is, leaves the loader and
    ends the script with nothing on the page. *)
Theorem centrality_failure_ends_the_script (lib : nx_lib) (fs : filesystem)
    (k_slider : nat) (physics_enabled : bool) (save_error : option string)
    (docf docv : graphml) (e : exn) :
  fs rede_completa = Some docf ->
  fs rede_visualizacao = Some docv ->
  compute_centralities lib (make_graph docf) = raise e ->
  run (carregar_e_processar_dados lib fs) = ([], raise e) /\
  run (main lib fs k_slider physics_enabled save_error) = ([], raise e).
Proof.
  intros Hf Hv Hc. unfold run, main, bind.
  rewrite (carregar_present lib fs [] docf docv Hf Hv), Hc. now split.
Qed.

Lemma centrality_failure_ends_the_script_witness :
  run (carregar_e_processar_dados
         {| average_clustering := fun _ => ok 0;
            degree_assortativity_coefficient := fun _ => ok 0;
            closeness_centrality := uniform 0;
            betweenness_centrality := uniform 0;
            eigenvector_centrality_numpy := fun _ => raise FileNotFoundError;
            number_weakly_connected_components := fun _ => 1%nat;
            number_strongly_connected_components := fun _ => 1%nat |}
         (files (Some A_B_C) (Some A_B_C)))
    = ([], raise FileNotFoundError) /\
  run (main
         {| average_clustering := fun _ => ok 0;
            degree_assortativity_coefficient := fun _ => ok 0;
            closeness_centrality := uniform 0;
            betweenness_centrality := uniform 0;
            eigenvector_centrality_numpy := fun _ => raise FileNotFoundError;
            number_weakly_connected_components := fun _ => 1%nat;
            number_strongly_connected_components := fun _ => 1%nat |}
         (files (Some A_B_C) (Some A_B_C)) 10 true None)
    = ([], raise FileNotFoundError).
Proof.
  apply (centrality_failure_ends_the_script _
           (files (Some A_B_C) (Some A_B_C)) 10 true None A_B_C A_B_C
           FileNotFoundError); reflexivity.
Defined.

(** X1. The page of a run in which nothing fails: the eight metrics, the
    four rankings (degree, betweenness, eigenvector, closeness) and the
    network, in this order.  When only the HTML file cannot be written,
    the network is replaced by an error message and the run still ends
    normally. *)
Theorem page_of_a_successful_run (lib : nx_lib) (fs : filesystem)
    (k_slider : nat) (physics_enabled : bool) (save_error : option string) (ws : list widget)
    (G Gv : DiGraph) (df : DataFrame) (c a : Q) :
  run (carregar_e_processar_dados lib fs) = (ws, ok (Some G, Some Gv, Some df)) ->
  truthy G && truthy Gv = true ->
  average_clustering lib (nx_Graph G) = ok c ->
  degree_assortativity_coefficient lib (nx_Graph G) = ok a ->
  connected (nx_Graph G) ->
  (forall n, In n (node_list Gv) -> In n (node_list G)) ->
  ~ max_eigenvector_of (eigenvector_scores_of df) == 0 ->
  exists d net,
    diameter (nx_Graph G) = ok d /\
    build_render_set Gv G df physics_enabled = ok net /\
    run (main lib fs k_slider physics_enabled save_error) =
    ([st_metric "Total de Jogadores (Nós)" (Count (number_of_nodes G));
      st_metric "Total de Partidas (Arestas)" (Count (number_of_edges G));
      st_metric "Densidade da Rede" (Number (density G));
      st_metric "Coef. de Clustering Global" (Number c);
      st_metric "Assortatividade de Grau" (Number a);
      st_metric "Diâmetro da Rede" (Count d);
      st_metric "Componentes Fracamente Conectados"
        (Count (number_weakly_connected_components lib G));
      st_metric "Componentes Fortemente Conectados"
        (Count (number_strongly_connected_components lib G));
      st_dataframe ByDegree (top_k df ByDegree k_slider);
      st_dataframe ByBetweenness (top_k df ByBetweenness k_slider);
      st_dataframe ByEigenvector (top_k df ByEigenvector k_slider);
      st_dataframe ByCloseness (top_k df ByCloseness k_slider);
      match save_error with
      | None => components_html net
      | Some e => st_error (html_error_msg e)
      end],
     ok tt).
Proof.
  intros Hload Hg Hc Ha Hconn Hsub Hm.
  pose proof (carregar_inv _ _ _ _ _ _ _ Hload)
    as [docf [docv [_ [_ [EG [EGv [_ Hws]]]]]]].
  subst G Gv ws.
  destruct (diameter_connected (make_graph docf)) as [d Hd].
  { apply make_graph_wf. }
  { unfold truthy in Hg. unfold node_list, dict_keys.
    destruct (nodes (make_graph docf)); [discriminate | simpl; discriminate]. }
  { assumption. }
  exists d. eexists. split; [exact Hd|].
  split; [now apply build_render_set_ok|].
  rewrite (main_guard_true lib fs k_slider physics_enabled save_error []
             (make_graph docf) (make_graph docv) df Hload Hg).
  rewrite tab_metricas_eq. cbv zeta. rewrite Hc, Ha, Hd.
  unfold ok. cbv beta iota.
  rewrite tab_centralidade_eq. unfold ok. cbv beta iota.
  rewrite tab_rede_eq, build_render_set_ok by assumption.
  unfold ok. cbv beta iota. simpl app.
  rewrite <- ?app_assoc. reflexivity.
Qed.

Lemma page_of_a_successful_run_witness :
  exists d net,
    diameter (nx_Graph (make_graph A_B_C)) = ok d /\
    build_render_set (make_graph only_A) (make_graph A_B_C) table_A_B_C true
      = ok net /\
    run (main sample_lib (files (Some A_B_C) (Some only_A)) 5 true
           (Some "[Errno 28] No space left on device")) =
    ([st_metric "Total de Jogadores (Nós)"
        (Count (number_of_nodes (make_graph A_B_C)));
      st_metric "Total de Partidas (Arestas)"
        (Count (number_of_edges (make_graph A_B_C)));
      st_metric "Densidade da Rede" (Number (density (make_graph A_B_C)));
      st_metric "Coef. de Clustering Global" (Number 0);
      st_metric "Assortatividade de Grau" (Number 0);
      st_metric "Diâmetro da Rede" (Count d);
      st_metric "Componentes Fracamente Conectados"
        (Count (number_weakly_connected_components sample_lib
                  (make_graph A_B_C)));
      st_metric "Componentes Fortemente Conectados"
        (Count (number_strongly_connected_components sample_lib
                  (make_graph A_B_C)));
      st_dataframe ByDegree (top_k table_A_B_C ByDegree 5);
      st_dataframe ByBetweenness (top_k table_A_B_C ByBetweenness 5);
      st_dataframe ByEigenvector (top_k table_A_B_C ByEigenvector 5);
      st_dataframe ByCloseness (top_k table_A_B_C ByCloseness 5);
      match Some "[Errno 28] No space left on device" with
      | None => components_html net
      | Some e => st_error (html_error_msg e)
      end],
     ok tt).
Proof.
  apply (page_of_a_successful_run sample_lib (files (Some A_B_C) (Some only_A))
           5 true (Some "[Errno 28] No space left on device") []
           (make_graph A_B_C) (make_graph only_A)
           table_A_B_C 0 0).
  - vm_compute. reflexivity.
  - reflexivity.
  - reflexivity.
  - reflexivity.
  - apply (diameter_ok_connected (make_graph A_B_C) 2);
      [apply make_graph_wf | reflexivity].
  - intros n Hn. vm_compute in Hn |- *. tauto.
  - vm_compute. discriminate.
Defined.

(* ----------------------------------------------------------------- *)
(** ** Rankings of a loaded table *)

Lemma select_names (df : DataFrame) (m : metric) :
  List.length (column df m) = List.length (Jogador df) ->
  map fst (select df m) = Jogador df.
Proof. intros H. unfold select. now apply combine_fst. Qed.

Lemma top_k_split (df : DataFrame) (m : metric) (k : nat) :
  Permutation (top_k df m k ++ skipn k (sort_values_desc (select df m)))
    (select df m).
Proof.
  unfold top_k, nlargest. rewrite firstn_skipn. apply sort_values_desc_perm.
Qed.

(** X5. For a table returned by the loader the rankings tab never fails: it
    shows four tables, and each has [min k node_count] rows, with
    distinct players who are all nodes of the full graph. *)
Theorem rankings_of_a_loaded_table (lib : nx_lib) (fs : filesystem)
    (ws ws0 : list widget) (G Gv : DiGraph) (df : DataFrame) (k : nat) :
  run (carregar_e_processar_dados lib fs) = (ws, ok (Some G, Some Gv, Some df)) ->
  tab_centralidade df k ws0 =
    (ws0 ++ [st_dataframe ByDegree (top_k df ByDegree k);
             st_dataframe ByBetweenness (top_k df ByBetweenness k);
             st_dataframe ByEigenvector (top_k df ByEigenvector k);
             st_dataframe ByCloseness (top_k df ByCloseness k)], ok tt) /\
  forall m,
    List.length (top_k df m k) = Nat.min k (number_of_nodes G) /\
    NoDup (map fst (top_k df m k)) /\
    incl (map fst (top_k df m k)) (node_list G).
Proof.
  intros H. apply loaded_table_shape in H as [_ [[ND _] [_ [HJ HL]]]].
  split; [apply tab_centralidade_eq|]. intros m.
  pose proof (select_names df m (HL m)) as Hn.
  pose proof (top_k_split df m k) as P.
  apply (Permutation_map fst) in P. rewrite map_app, Hn, HJ in P.
  split; [|split].
  - unfold top_k, nlargest. rewrite length_firstn.
    rewrite (Permutation_length (sort_values_desc_perm (select df m))).
    rewrite <- (length_map fst), Hn, HJ.
    unfold node_list, dict_keys, number_of_nodes. now rewrite length_map.
  - apply (NoDup_app_remove_r _ (map fst (skipn k (sort_values_desc (select df m))))).
    eapply Permutation_NoDup; [symmetry; exact P | exact ND].
  - intros x Hx. eapply Permutation_in; [exact P|].
    apply in_or_app. now left.
Qed.

Lemma rankings_of_a_loaded_table_witness :
  tab_centralidade table_A_B_C 2 [] =
    ([] ++ [st_dataframe ByDegree (top_k table_A_B_C ByDegree 2);
            st_dataframe ByBetweenness (top_k table_A_B_C ByBetweenness 2);
            st_dataframe ByEigenvector (top_k table_A_B_C ByEigenvector 2);
            st_dataframe ByCloseness (top_k table_A_B_C ByCloseness 2)], ok tt) /\
  forall m,
    List.length (top_k table_A_B_C m 2)
      = Nat.min 2 (number_of_nodes (make_graph A_B_C)) /\
    NoDup (map fst (top_k table_A_B_C m 2)) /\
    incl (map fst (top_k table_A_B_C m 2)) (node_list (make_graph A_B_C)).
Proof.
  apply (rankings_of_a_loaded_table sample_lib
           (files (Some A_B_C) (Some only_A)) [] []
           (make_graph A_B_C) (make_graph only_A) table_A_B_C 2).
  vm_compute. reflexivity.
Defined.

(* ----------------------------------------------------------------- *)
(** ** The diameter is shown exactly for connected graphs *)

(** X14. For a graph read from a file and having a node, [nx.diameter]
    returns a number if and only if the undirected graph is connected. *)
Theorem diameter_defined_iff_connected (doc : graphml) :
  node_list (make_graph doc) <> [] ->
  ((exists d, diameter (nx_Graph (make_graph doc)) = ok d) <->
   connected (nx_Graph (make_graph doc))).
Proof.
  intros Hne. split.
  - intros [d Hd]. exact (diameter_ok_connected _ d (make_graph_wf doc) Hd).
  - intros Hc. exact (diameter_connected _ (make_graph_wf doc) Hne Hc).
Qed.

Lemma diameter_defined_iff_connected_witness :
  (exists d, diameter (nx_Graph (make_graph A_B_C)) = ok d) <->
  connected (nx_Graph (make_graph A_B_C)).
Proof.
  apply (diameter_defined_iff_connected A_B_C). vm_compute. discriminate.
Defined.

(* ----------------------------------------------------------------- *)
(** ** What the loader keeps of the file *)

Lemma fold_add_edge_edges (es : list edge) :
  forall G, edges (fold_left add_edge es G) = edges G ++ es.
Proof.
  induction es as [|e r IH]; intros G; simpl.
  - now rewrite app_nil_r.
  - rewrite IH. simpl. now rewrite <- app_assoc.
Qed.

Lemma fold_add_node_edges (ns : list (string * node_attrs)) :
  forall G,
    edges (fold_left (fun G na => add_node G (fst na) (snd na)) ns G) = edges G.
Proof.
  induction ns as [|n r IH]; intros G; simpl; [reflexivity|].
  rewrite IH. unfold add_node. now destruct (dict_get (nodes G) (fst n)).
Qed.

Lemma make_graph_edges (doc : graphml) : edges (make_graph doc) = doc_edges doc.
Proof.
  unfold make_graph. now rewrite fold_add_edge_edges, fold_add_node_edges.
Qed.

Lemma dict_get_app_l {V} (d extra : dict V) (k : string) (v : V) :
  dict_get d k = Some v -> dict_get (d ++ extra) k = Some v.
Proof.
  induction d as [|[k' v'] r IH]; simpl; [discriminate|].
  destruct (String.eqb k k'); [tauto | exact IH].
Qed.

Lemma ensure_node_get (ns : dict node_attrs) (n k : string) (a : node_attrs) :
  dict_get ns k = Some a -> dict_get (ensure_node ns n) k = Some a.
Proof.
  intros H. unfold ensure_node. destruct (dict_mem ns n); [exact H|].
  now apply dict_get_app_l.
Qed.

Lemma fold_add_edge_get (es : list edge) (k : string) (a : node_attrs) :
  forall G,
    dict_get (nodes G) k = Some a ->
    dict_get (nodes (fold_left add_edge es G)) k = Some a.
Proof.
  induction es as [|e r IH]; intros G H; simpl; [exact H|].
  apply IH. unfold add_edge. simpl. now apply ensure_node_get, ensure_node_get.
Qed.

Lemma fold_add_node_fresh (ns : list (string * node_attrs)) :
  forall G,
    NoDup (node_list G ++ map fst ns) ->
    nodes (fold_left (fun G na => add_node G (fst na) (snd na)) ns G)
    = nodes G ++ ns.
Proof.
  induction ns as [|[n a] r IH]; intros G H; simpl.
  - now rewrite app_nil_r.
  - simpl in H. pose proof (NoDup_remove_2 _ _ _ H) as Hn.
    assert (E : dict_get (nodes G) n = None).
    { apply dict_get_None. intros Hin. apply Hn. apply in_or_app. now left. }
    assert (A : add_node G n a =
                {| nodes := nodes G ++ [(n, a)]; edges := edges G |}).
    { unfold add_node. now rewrite E. }
    rewrite A, IH; simpl.
    + now rewrite <- app_assoc.
    + unfold node_list, dict_keys. simpl. rewrite map_app. simpl.
      rewrite <- app_assoc. exact H.
Qed.

Lemma dict_get_NoDup_In {V} (d : dict V) (k : string) (v : V) :
  NoDup (dict_keys d) -> In (k, v) d -> dict_get d k = Some v.
Proof.
  induction d as [|[k' v'] r IH]; intros ND Hin; [destruct Hin|].
  inversion ND as [|? ? Hk ND']; subst. simpl.
  destruct Hin as [E|Hin].
  - injection E as -> ->. now rewrite String.eqb_refl.
  - destruct (String.eqb_spec k k') as [->|Hne].
    + exfalso. apply Hk. apply in_map_iff. now exists (k', v).
    + now apply IH.
Qed.

(** X20. When the file declares each node once, the loaded graph lists the
    declared nodes first, in file order, and every declared node keeps
    the attributes of its declaration: the community the network tab
    reads is the one in the file, and 0 for a node declared without one. *)
Theorem declared_attributes_survive_loading (doc : graphml) (n : string)
    (a : node_attrs) :
  NoDup (map fst (doc_nodes doc)) ->
  In (n, a) (doc_nodes doc) ->
  (exists undeclared,
     node_list (make_graph doc) = map fst (doc_nodes doc) ++ undeclared) /\
  dict_get (nodes (make_graph doc)) n = Some a /\
  community_id_of (make_graph doc) n =
    match community a with Some c => c | None => 0%Z end.
Proof.
  intros ND Hin.
  assert (N : nodes (fold_left (fun G na => add_node G (fst na) (snd na))
                       (doc_nodes doc) empty_graph) = doc_nodes doc).
  { now rewrite fold_add_node_fresh. }
  assert (Hget : dict_get (nodes (make_graph doc)) n = Some a).
  { unfold make_graph. apply fold_add_edge_get. rewrite N.
    now apply dict_get_NoDup_In. }
  split; [|split; [exact Hget|]].
  - unfold make_graph.
    set (G0 := fold_left (fun G na => add_node G (fst na) (snd na))
                 (doc_nodes doc) empty_graph) in *.
    assert (K : forall es G, exists extra,
                  node_list (fold_left add_edge es G) = node_list G ++ extra).
    { induction es as [|e r IH]; intros G; simpl.
      - exists []. now rewrite app_nil_r.
      - destruct (IH (add_edge G e)) as [x1 ->].
        assert (E : exists x0, node_list (add_edge G e) = node_list G ++ x0).
        { unfold add_edge, node_list, ensure_node. simpl.
          destruct (dict_mem (nodes G) (src e)).
          - destruct (dict_mem (nodes G) (dst e)).
            + exists []. now rewrite app_nil_r.
            + eexists. unfold dict_keys. now rewrite map_app.
          - destruct (dict_mem _ (dst e)).
            + eexists. unfold dict_keys. now rewrite map_app.
            + eexists. unfold dict_keys. rewrite !map_app, <- app_assoc.
              reflexivity. }
        destruct E as [x0 ->]. exists (x0 ++ x1). now rewrite app_assoc. }
    destruct (K (doc_edges doc) G0) as [extra ->].
    exists extra. unfold node_list. now rewrite N.
  - unfold community_id_of. now rewrite Hget.
Qed.

Lemma declared_attributes_survive_loading_witness :
  (exists undeclared,
     node_list (make_graph A1_B9) = map fst (doc_nodes A1_B9) ++ undeclared) /\
  dict_get (nodes (make_graph A1_B9)) "B" = Some {| community := Some 9%Z |} /\
  community_id_of (make_graph A1_B9) "B" =
    match community {| community := Some 9%Z |} with
    | Some c => c
    | None => 0%Z
    end.
Proof.
  apply (declared_attributes_survive_loading A1_B9 "B"
           {| community := Some 9%Z |}).
  - vm_compute. repeat constructor; simpl; intuition discriminate.
  - vm_compute. tauto.
Defined.

(* ----------------------------------------------------------------- *)
(** ** Density stays between 0 and 1 for simple directed graphs *)

Lemma flat_map_length_le {A B} (f : A -> list B) (c : nat) (l : list A) :
  (forall x, In x l -> (List.length (f x) <= c)%nat) ->
  (List.length (flat_map f l) <= List.length l * c)%nat.
Proof.
  induction l as [|a r IH]; intros H; simpl; [lia|].
  rewrite length_app.
  assert (H1 : (List.length (f a) <= c)%nat) by (apply H; now left).
  assert (H2 : (List.length (flat_map f r) <= List.length r * c)%nat)
    by (apply IH; intros x Hx; apply H; now right).
  lia.
Qed.

Lemma simple_edges_bound (G : DiGraph) :
  wf_DiGraph G ->
  NoDup (edge_pairs G) ->
  (forall e, In e (edges G) -> src e <> dst e) ->
  (number_of_edges G <= number_of_nodes G * (number_of_nodes G - 1))%nat.
Proof.
  intros [_ Hed] ND Hloop.
  set (l := node_list G).
  set (T := flat_map (fun x => map (pair x) (remove string_dec x l)) l).
  assert (Hincl : incl (edge_pairs G) T).
  { intros [s t] Hp. unfold edge_pairs in Hp.
    apply in_map_iff in Hp as [e [E He]]. injection E as <- <-.
    destruct (Hed e He) as [Hs Hd]. unfold T. apply in_flat_map.
    exists (src e). split; [exact Hs|]. apply in_map.
    apply in_in_remove; [|exact Hd]. intros E. apply (Hloop e He). now symmetry. }
  pose proof (NoDup_incl_length ND Hincl) as H1.
  assert (H2 : (List.length T <= List.length l * (List.length l - 1))%nat).
  { unfold T. apply flat_map_length_le. intros x Hx. rewrite length_map.
    pose proof (remove_length_lt string_dec l x Hx). lia. }
  assert (H3 : List.length l = number_of_nodes G).
  { unfold l, node_list, dict_keys, number_of_nodes. apply length_map. }
  assert (H4 : List.length (edge_pairs G) = number_of_edges G).
  { unfold edge_pairs, number_of_edges. apply length_map. }
  rewrite <- H4, <- H3. lia.
Qed.

Lemma density_nonneg (G : DiGraph) : 0 <= density G.
Proof.
  unfold density.
  destruct ((number_of_edges G =? 0)%nat || (number_of_nodes G <=? 1)%nat)
    eqn:E; [apply Qle_refl|].
  apply orb_false_iff in E as [_ E2]. apply Nat.leb_gt in E2.
  apply Qle_shift_div_l.
  - apply Qnat_pos. nia.
  - rewrite Qmult_0_l. apply (Qnat_le 0). lia.
Qed.

(** X17. The density shown is never negative, whatever the file; and it
    is at most 1 when the file has no repeated edge and no self-loop. *)
Theorem density_between_0_and_1 (doc : graphml) :
  0 <= density (make_graph doc) /\
  (NoDup (edge_pairs (make_graph doc)) ->
   (forall e, In e (doc_edges doc) -> src e <> dst e) ->
   density (make_graph doc) <= 1).
Proof.
  split; [apply density_nonneg|].
  intros ND Hloop. set (G := make_graph doc) in *.
  assert (Hb : (number_of_edges G <=
                number_of_nodes G * (number_of_nodes G - 1))%nat).
  { apply simple_edges_bound; [apply make_graph_wf | exact ND |].
    intros e He. apply Hloop. unfold G in He. now rewrite make_graph_edges in He. }
  unfold density.
  destruct ((number_of_edges G =? 0)%nat || (number_of_nodes G <=? 1)%nat)
    eqn:E; [discriminate|].
  apply orb_false_iff in E as [E1 E2].
  apply Nat.eqb_neq in E1. apply Nat.leb_gt in E2.
  apply Qle_shift_div_r.
  - apply Qnat_pos. nia.
  - rewrite Qmult_1_l. now apply Qnat_le.
Qed.

Lemma density_between_0_and_1_witness :
  0 <= density (make_graph A_B_C) /\ density (make_graph A_B_C) <= 1.
Proof.
  destruct (density_between_0_and_1 A_B_C) as [Hlow Hup].
  split; [exact Hlow|]. apply Hup.
  - vm_compute. repeat constructor; simpl; intuition discriminate.
  - intros e He. vm_compute in He.
    destruct He as [<-|[<-|[]]]; simpl; discriminate.
Defined.

(* ----------------------------------------------------------------- *)
(** ** The warning and the tabs exclude each other *)

Lemma tabs_show_no_warning (lib : nx_lib) (G Gv : DiGraph) (df : DataFrame)
    (k : nat) (p : bool) (s : option string) (msg : string) :
  ~ In (st_warning msg)
      (fst (match tab_metricas lib G [] with
            | (ws1, inl e) => (ws1, inl e)
            | (ws1, inr _) =>
                match tab_centralidade df k ws1 with
                | (ws2, inl e) => (ws2, inl e)
                | (ws2, inr _) => tab_rede G Gv df p s ws2
                end
            end)).
Proof.
  rewrite tab_metricas_eq. cbv zeta.
  destruct (average_clustering lib (nx_Graph G)) as [e|c];
    [simpl; intuition discriminate|].
  destruct (degree_assortativity_coefficient lib (nx_Graph G)) as [e|a];
    [simpl; intuition discriminate|].
  destruct (diameter (nx_Graph G)) as [e|d];
    [simpl; intuition discriminate|].
  unfold ok. cbv beta iota. rewrite tab_centralidade_eq.
  unfold ok. cbv beta iota. rewrite tab_rede_eq.
  destruct (build_render_set Gv G df p) as [e|net]; simpl fst.
  - rewrite ?in_app_iff. simpl. intuition discriminate.
  - rewrite ?in_app_iff. destruct s; simpl; intuition discriminate.
Qed.

(** X2. The warning of the failure branch is never on the page together
    with a metric, a ranking or the network; and a run that shows the
    warning ends normally. *)
Theorem warning_excludes_the_tabs (lib : nx_lib) (fs : filesystem)
    (k_slider : nat) (physics_enabled : bool) (save_error : option string) :
  In (st_warning load_warning)
     (fst (run (main lib fs k_slider physics_enabled save_error))) ->
  snd (run (main lib fs k_slider physics_enabled save_error)) = ok tt /\
  forall w, In w (fst (run (main lib fs k_slider physics_enabled save_error))) ->
            is_tab_widget w = false.
Proof.
  destruct (fs rede_completa) as [docf|] eqn:Ef;
    [destruct (fs rede_visualizacao) as [docv|] eqn:Ev|].
  - pose proof (carregar_present lib fs [] docf docv Ef Ev) as Hload.
    destruct (compute_centralities lib (make_graph docf)) as [e|df] eqn:Ec.
    + unfold run, main, bind. rewrite Hload. simpl. tauto.
    + destruct (truthy (make_graph docf) && truthy (make_graph docv)) eqn:Hg.
      * rewrite (main_guard_true lib fs k_slider physics_enabled save_error []
                   (make_graph docf) (make_graph docv) df Hload Hg).
        intros H. exfalso. revert H. apply tabs_show_no_warning.
      * unfold run, main, bind. rewrite Hload. unfold ok. rewrite Hg.
        intros _. split; [reflexivity|].
        intros w [<-|[]]. reflexivity.
  - intros _. unfold run, main, bind.
    rewrite carregar_missing by now right. split; [reflexivity|].
    intros w [<-|[<-|[]]]; reflexivity.
  - intros _. unfold run, main, bind.
    rewrite carregar_missing by now left. split; [reflexivity|].
    intros w [<-|[<-|[]]]; reflexivity.
Qed.

Lemma warning_excludes_the_tabs_witness :
  snd (run (main sample_lib (files (Some A_B_C) (Some no_nodes)) 10 true None))
    = ok tt /\
  forall w,
    In w (fst (run (main sample_lib (files (Some A_B_C) (Some no_nodes))
                      10 true None))) ->
    is_tab_widget w = false.
Proof.
  apply (warning_excludes_the_tabs sample_lib
           (files (Some A_B_C) (Some no_nodes)) 10 true None).
  vm_compute. tauto.
Defined.

(* ----------------------------------------------------------------- *)
(** ** The search computes shortest path lengths *)

Lemma walk_reach (G : Graph) (s x : string) (d : nat) :
  walk G s x d -> reach G s x.
Proof.
  induction 1 as [|v w d _ IH Hw]; [constructor|].
  eapply reach_step; eassumption.
Qed.

Lemma reach_walk (G : Graph) (s x : string) :
  reach G s x -> exists d, walk G s x d.
Proof.
  induction 1 as [|v w _ [d IH] Hw].
  - exists 0%nat. constructor.
  - exists (S d). eapply walk_step; eassumption.
Qed.

Lemma bfs_shortest (G : Graph) (s : string) :
  (forall u w, In w (neighbors G u) -> In w (g_node_list G)) ->
  forall fuel level thislevel seen found,
    NoDup seen ->
    incl seen (g_node_list G) ->
    (forall x d, In (x, d) found -> walk G s x d) ->
    (forall x, In x thislevel -> walk G s x level) ->
    (forall x k, walk G s x k -> (k <= level)%nat -> In x seen) ->
    (forall x, In x seen -> ~ In x thislevel ->
       forall w, In w (neighbors G x) -> In w seen) ->
    (forall x d, In (x, d) found ->
       forall k, walk G s x k -> (d <= k)%nat) ->
    (thislevel <> [] -> (order G + 1 <= fuel + List.length seen)%nat) ->
    forall x d, In (x, d) (bfs G fuel level thislevel seen found) ->
      walk G s x d /\ forall k, walk G s x k -> (d <= k)%nat.
Proof.
  intros Hclosed.
  induction fuel as [|fuel IH];
    intros level thislevel seen found ND Hsub Hw Hlvl Hnear Hc Hmin Hfuel x d;
    simpl.
  - intros Hin. split; [now apply Hw | now apply Hmin].
  - destruct thislevel as [|v r].
    + intros Hin. split; [now apply Hw | now apply Hmin].
    + destruct (scan_level_spec G (v :: r) seen []) as [new [E [NDn Hn]]].
      pose proof (scan_level_covers G (v :: r) seen []) as Hcov.
      rewrite E in *. simpl ([] ++ new) in *. simpl fst in Hcov.
      assert (Hnew : forall y, In y new -> walk G s y (S level)).
      { intros y Hy. apply Hn in Hy as [_ [v' [Hv1 Hv2]]].
        eapply walk_step; [apply Hlvl; exact Hv1 | exact Hv2]. }
      apply IH.
      * apply NoDup_app; [now apply NoDup_rev | assumption |].
        intros a Ha Hb. apply in_rev in Ha. apply Hn in Ha as [Ha _].
        contradiction.
      * intros a Ha. apply in_app_or in Ha as [Ha|Ha]; [|now apply Hsub].
        apply in_rev in Ha. apply Hn in Ha as [_ [v' [_ Hv]]].
        exact (Hclosed v' a Hv).
      * intros y dy Hy. apply in_app_or in Hy as [Hy|Hy]; [now apply Hw|].
        apply in_map_iff in Hy as [y' [Ey Hy]]. injection Ey as -> <-.
        now apply Hnew.
      * exact Hnew.
      * intros y k Hk Hle.
        destruct (Nat.eq_dec k (S level)) as [->|Hne].
        -- inversion Hk as [|v' ? ? Hv' Hy]; subst.
           assert (Hs' : In v' seen) by (apply (Hnear v' level); auto).
           apply Hcov.
           destruct (in_dec string_dec v' (v :: r)) as [Hin|Hout].
           ++ right. now exists v'.
           ++ left. exact (Hc v' Hs' Hout y Hy).
        -- apply in_or_app. right. apply (Hnear y k); [assumption | lia].
      * intros a Ha Hnot w Hw'. apply in_app_or in Ha as [Ha|Ha].
        -- apply in_rev in Ha. contradiction.
        -- apply Hcov.
           destruct (in_dec string_dec a (v :: r)) as [Hin|Hout].
           ++ right. now exists a.
           ++ left. exact (Hc a Ha Hout w Hw').
      * intros y dy Hy k Hk. apply in_app_or in Hy as [Hy|Hy].
        -- now apply (Hmin y dy).
        -- apply in_map_iff in Hy as [y' [Ey Hy]]. injection Ey as -> <-.
           destruct (le_lt_dec k level) as [Hle|Hlt]; [|lia].
           exfalso. apply Hn in Hy as [Hy _]. apply Hy.
           now apply (Hnear y k).
      * intros Hne. rewrite length_app, length_rev.
        assert (Hv : (order G + 1 <= S fuel + List.length seen)%nat)
          by (apply Hfuel; discriminate).
        destruct new; [contradiction|]. simpl. lia.
Qed.

Lemma shortest_path_length_shortest (G : DiGraph) (s x : string) (d : nat) :
  wf_DiGraph G -> In s (node_list G) ->
  In (x, d) (single_source_shortest_path_length (nx_Graph G) s) ->
  walk (nx_Graph G) s x d /\
  forall k, walk (nx_Graph G) s x k -> (d <= k)%nat.
Proof.
  intros Hwf Hs. unfold single_source_shortest_path_length.
  apply (bfs_shortest (nx_Graph G) s).
  - intros u w. now apply neighbors_closed.
  - constructor; [intros [] | constructor].
  - intros a [<-|[]]. exact Hs.
  - intros y dy [E|[]]. injection E as <- <-. constructor.
  - intros y [<-|[]]. constructor.
  - intros y k Hk Hle. assert (k = 0%nat) by lia. subst k.
    inversion Hk. now left.
  - intros a [<-|[]] Hnot. exfalso. apply Hnot. now left.
  - intros y dy [E|[]] k _. injection E as _ <-. lia.
  - intros _. simpl. lia.
Qed.

(** X16. For a node [s] of a loaded graph, the table of shortest path
    lengths holds exactly the pairs of a node reachable from [s] and the
    least number of steps of a walk from [s] to it. *)
Theorem shortest_path_lengths_are_least_walks (doc : graphml) (s x : string)
    (d : nat) :
  In s (node_list (make_graph doc)) ->
  (In (x, d)
      (single_source_shortest_path_length (nx_Graph (make_graph doc)) s) <->
   walk (nx_Graph (make_graph doc)) s x d /\
   forall k, walk (nx_Graph (make_graph doc)) s x k -> (d <= k)%nat).
Proof.
  intros Hs. pose proof (make_graph_wf doc) as Hwf. split.
  - now apply shortest_path_length_shortest.
  - intros [Hw Hmin].
    pose proof (shortest_path_length_complete _ s x Hwf Hs (walk_reach _ _ _ _ Hw))
      as Hin.
    apply in_map_iff in Hin as [[x' d'] [Ex Hin]]. simpl in Ex. subst x'.
    destruct (shortest_path_length_shortest _ s x d' Hwf Hs Hin) as [Hw' Hmin'].
    assert (d' = d) by (apply Nat.le_antisymm; auto). now subst d'.
Qed.

Lemma shortest_path_lengths_are_least_walks_witness :
  In ("C", 2%nat)
     (single_source_shortest_path_length (nx_Graph (make_graph A_B_C)) "A") <->
  walk (nx_Graph (make_graph A_B_C)) "A" "C" 2 /\
  forall k, walk (nx_Graph (make_graph A_B_C)) "A" "C" k -> (2 <= k)%nat.
Proof.
  apply (shortest_path_lengths_are_least_walks A_B_C "A" "C" 2).
  vm_compute. tauto.
Defined.

(* ----------------------------------------------------------------- *)
(** ** The diameter is the longest shortest path *)

Lemma list_max_ge (l : list nat) (y : nat) :
  In y l -> (y <= list_max l)%nat.
Proof.
  induction l as [|a r IH]; simpl; [tauto|].
  intros [<-|H]; [lia|]. specialize (IH H). lia.
Qed.

Lemma list_max_In (l : list nat) : l <> [] -> In (list_max l) l.
Proof.
  induction l as [|a r IH]; [congruence|]. intros _. simpl.
  destruct r as [|b r'].
  - left. simpl. lia.
  - destruct (Nat.max_spec a (list_max (b :: r'))) as [[_ E]|[_ E]];
      simpl in E |- *; rewrite E.
    + right. apply IH. discriminate.
    + now left.
Qed.

Lemma mapM_inr_In {A B} (f : A -> Result B) (l : list A) (ys : list B) :
  mapM f l = inr ys ->
  (forall x, In x l -> exists y, In y ys /\ f x = inr y) /\
  (forall y, In y ys -> exists x, In x l /\ f x = inr y).
Proof.
  revert ys. induction l as [|a r IH]; intros ys; simpl.
  - intros H. injection H as <-. split; intros ? [].
  - destruct (f a) as [e'|y] eqn:Ea; simpl; [discriminate|].
    destruct (mapM f r) as [e'|ys']; simpl; [discriminate|].
    intros H. injection H as <-. destruct (IH ys' eq_refl) as [H1 H2]. split.
    + intros x [<-|Hx].
      * exists y. split; [now left | assumption].
      * destruct (H1 x Hx) as [y' [Hy' Hf]]. exists y'. split; [now right | assumption].
    + intros y0 [<-|Hy0].
      * exists a. split; [now left | assumption].
      * destruct (H2 y0 Hy0) as [x [Hx Hf]]. exists x. split; [now right | assumption].
Qed.

Lemma eccentricity_of_inv (G : Graph) (n : string) (e : nat) :
  eccentricity_of G n = inr e ->
  List.length (single_source_shortest_path_length G n) = order G /\
  e = list_max (dict_values (single_source_shortest_path_length G n)).
Proof.
  unfold eccentricity_of.
  destruct (Nat.eqb_spec
              (List.length (single_source_shortest_path_length G n)) (order G))
    as [E|E]; [|discriminate].
  intros H. injection H as <-. now split.
Qed.

(** X15. When [nx.diameter] returns [d] for a loaded graph, every two nodes
    are joined by a walk of at most [d] steps, and some two nodes are
    joined by a walk of [d] steps and by no shorter one. *)
Theorem diameter_is_the_longest_shortest_path (doc : graphml) (d : nat) :
  diameter (nx_Graph (make_graph doc)) = ok d ->
  (forall u v,
     In u (node_list (make_graph doc)) -> In v (node_list (make_graph doc)) ->
     exists k, (k <= d)%nat /\ walk (nx_Graph (make_graph doc)) u v k) /\
  (exists u v,
     In u (node_list (make_graph doc)) /\ In v (node_list (make_graph doc)) /\
     walk (nx_Graph (make_graph doc)) u v d /\
     forall k, walk (nx_Graph (make_graph doc)) u v k -> (d <= k)%nat).
Proof.
  intros Hd. pose proof (make_graph_wf doc) as Hwf.
  set (G := make_graph doc) in *.
  pose proof (diameter_ok_connected G d Hwf Hd) as Hconn.
  revert Hd. unfold diameter, eccentricity.
  destruct (mapM (eccentricity_of (nx_Graph G)) (g_node_list (nx_Graph G)))
    as [e|es] eqn:E; unfold rbind; [discriminate|].
  destruct es as [|e0 es']; [discriminate|].
  intros H. injection H as Hd.
  change (list_max (e0 :: es') = d) in Hd.
  destruct (mapM_inr_In _ _ _ E) as [Hfwd Hbwd]. split.
  - intros u v Hu Hv.
    destruct (Hfwd u Hu) as [eu [Heu Hf]].
    apply eccentricity_of_inv in Hf as [_ ->].
    pose proof (shortest_path_length_complete G u v Hwf Hu (Hconn u v Hu Hv))
      as Hin.
    apply in_map_iff in Hin as [[v' dv] [Ev Hin]]. simpl in Ev. subst v'.
    exists dv. split.
    + apply Nat.le_trans with
        (list_max (dict_values
                     (single_source_shortest_path_length (nx_Graph G) u))).
      * apply list_max_ge. apply in_map_iff. now exists (v, dv).
      * rewrite <- Hd. now apply list_max_ge.
    + now apply (shortest_path_length_shortest G u v dv Hwf Hu).
  - assert (Hin : In d (e0 :: es')).
    { rewrite <- Hd. apply list_max_In. discriminate. }
    destruct (Hbwd d Hin) as [u [Hu Hf]].
    apply eccentricity_of_inv in Hf as [HL Hmax].
    assert (Hne : dict_values
                    (single_source_shortest_path_length (nx_Graph G) u) <> []).
    { intros Hnil. apply (f_equal (@List.length nat)) in Hnil.
      rewrite dict_values_length in Hnil. unfold dict_keys in Hnil.
      rewrite length_map, HL in Hnil. unfold order in Hnil. simpl in Hnil.
      unfold g_node_list, dict_keys in Hu. simpl in Hu.
      destruct (nodes G); [destruct Hu | discriminate]. }
    pose proof (list_max_In _ Hne) as Hd'. rewrite <- Hmax in Hd'.
    apply in_map_iff in Hd' as [[v dv] [Ev Hv]]. simpl in Ev. subst dv.
    destruct (shortest_path_length_shortest G u v d Hwf Hu Hv) as [Hw Hmin].
    exists u, v. split; [exact Hu|]. split; [|now split].
    apply (reach_in_nodes G u v Hwf Hu). eapply walk_reach. exact Hw.
Qed.

Lemma diameter_is_the_longest_shortest_path_witness :
  (forall u v,
     In u (node_list (make_graph A_B_C)) -> In v (node_list (make_graph A_B_C)) ->
     exists k, (k <= 2)%nat /\ walk (nx_Graph (make_graph A_B_C)) u v k) /\
  (exists u v,
     In u (node_list (make_graph A_B_C)) /\ In v (node_list (make_graph A_B_C)) /\
     walk (nx_Graph (make_graph A_B_C)) u v 2 /\
     forall k, walk (nx_Graph (make_graph A_B_C)) u v k -> (2 <= k)%nat).
Proof.
  apply (diameter_is_the_longest_shortest_path A_B_C 2). reflexivity.
Defined.

(* ----------------------------------------------------------------- *)
(** ** Neighbours in the undirected graph *)

(** X18. In the undirected graph of a loaded graph, two players are
    neighbours exactly when some edge of the file joins them, in either
    direction; being a neighbour is symmetric; and a pair joined by
    several edges is one neighbour entry. *)
Theorem neighbours_are_joined_by_an_edge (doc : graphml) (u w : string) :
  (In w (neighbors (nx_Graph (make_graph doc)) u) <->
   exists e, In e (doc_edges doc) /\
     ((src e = u /\ dst e = w) \/ (dst e = u /\ src e = w))) /\
  (In w (neighbors (nx_Graph (make_graph doc)) u) <->
   In u (neighbors (nx_Graph (make_graph doc)) w)) /\
  NoDup (neighbors (nx_Graph (make_graph doc)) u).
Proof.
  destruct (make_graph_wf doc) as [_ Hed].
  assert (K : forall a b,
            In b (neighbors (nx_Graph (make_graph doc)) a) <->
            exists e, In e (doc_edges doc) /\
              ((src e = a /\ dst e = b) \/ (dst e = a /\ src e = b))).
  { intros a b. rewrite (neighbors_In _ _ _ (make_graph_wf doc)), make_graph_edges.
    split.
    - intros [_ H]. exact H.
    - intros [e [He Hc]]. split; [|now exists e].
      rewrite <- make_graph_edges in He. destruct (Hed e He) as [Hs Hd].
      destruct Hc as [[<- _]|[<- _]]; assumption. }
  split; [apply K|]. split; [|apply neighbors_NoDup].
  rewrite !K. split; intros [e [He Hc]]; exists e; tauto.
Qed.

(* ----------------------------------------------------------------- *)
(** ** When the loader returns a table *)

Lemma pd_DataFrame_inv (j : list string) (d c b e : list Q) (df : DataFrame) :
  pd_DataFrame j d c b e = ok df ->
  List.length d = List.length j /\ List.length c = List.length j /\
  List.length b = List.length j /\ List.length e = List.length j.
Proof.
  unfold pd_DataFrame.
  destruct (Nat.eqb_spec (List.length d) (List.length j)); simpl;
    [|discriminate].
  destruct (Nat.eqb_spec (List.length c) (List.length j)); simpl;
    [|discriminate].
  destruct (Nat.eqb_spec (List.length b) (List.length j)); simpl;
    [|discriminate].
  destruct (Nat.eqb_spec (List.length e) (List.length j)); simpl;
    [|discriminate].
  tauto.
Qed.

(** X4. With both files present, the loader returns the graphs and a table
    exactly when the closeness, betweenness and eigenvector calls all
    return, each with as many scores as the full graph has nodes. *)
Theorem loader_returns_iff_one_score_per_node (lib : nx_lib) (fs : filesystem)
    (docf docv : graphml) :
  fs rede_completa = Some docf ->
  fs rede_visualizacao = Some docv ->
  ((exists df,
      run (carregar_e_processar_dados lib fs) =
      ([], ok (Some (make_graph docf), Some (make_graph docv), Some df))) <->
   exists clo btw eig,
     closeness_centrality lib (nx_Graph (make_graph docf)) = ok clo /\
     betweenness_centrality lib (nx_Graph (make_graph docf)) = ok btw /\
     eigenvector_centrality_numpy lib (nx_Graph (make_graph docf)) = ok eig /\
     List.length clo = number_of_nodes (make_graph docf) /\
     List.length btw = number_of_nodes (make_graph docf) /\
     List.length eig = number_of_nodes (make_graph docf)).
Proof.
  intros Hf Hv. unfold run.
  rewrite (carregar_present lib fs [] docf docv Hf Hv).
  assert (Hn : List.length (g_node_list (nx_Graph (make_graph docf)))
               = number_of_nodes (make_graph docf)).
  { unfold g_node_list, dict_keys, number_of_nodes. simpl. apply length_map. }
  unfold compute_centralities. split.
  - intros [df H].
    destruct (closeness_centrality lib (nx_Graph (make_graph docf)))
      as [?|clo]; [discriminate|].
    destruct (betweenness_centrality lib (nx_Graph (make_graph docf)))
      as [?|btw]; [discriminate|].
    destruct (eigenvector_centrality_numpy lib (nx_Graph (make_graph docf)))
      as [?|eig]; [discriminate|].
    simpl rbind in H.
    destruct (pd_DataFrame _ _ _ _ _) as [?|df'] eqn:Ep; [discriminate|].
    apply pd_DataFrame_inv in Ep as [_ [Hc [Hb He]]].
    unfold dict_values in Hc, Hb, He. rewrite length_map, Hn in Hc, Hb, He.
    exists clo, btw, eig. tauto.
  - intros [clo [btw [eig [-> [-> [-> [Hc [Hb He]]]]]]]]. simpl rbind.
    unfold pd_DataFrame.
    assert (KL : forall d : dict Q, List.length (dict_values d) = List.length d)
      by (intros d; apply length_map).
    rewrite (dict_values_length (degree_centrality _)), degree_centrality_keys.
    rewrite !KL, Hn, Hc, Hb, He, Nat.eqb_refl. simpl. now eexists.
Qed.

Lemma loader_returns_iff_one_score_per_node_witness :
  (exists df,
     run (carregar_e_processar_dados sample_lib
            (files (Some A_B_C) (Some only_A))) =
     ([], ok (Some (make_graph A_B_C), Some (make_graph only_A), Some df))) <->
  exists clo btw eig,
    closeness_centrality sample_lib (nx_Graph (make_graph A_B_C)) = ok clo /\
    betweenness_centrality sample_lib (nx_Graph (make_graph A_B_C)) = ok btw /\
    eigenvector_centrality_numpy sample_lib (nx_Graph (make_graph A_B_C))
      = ok eig /\
    List.length clo = number_of_nodes (make_graph A_B_C) /\
    List.length btw = number_of_nodes (make_graph A_B_C) /\
    List.length eig = number_of_nodes (make_graph A_B_C).
Proof.
  apply (loader_returns_iff_one_score_per_node sample_lib
           (files (Some A_B_C) (Some only_A)) A_B_C only_A); reflexivity.
Defined.

(* ----------------------------------------------------------------- *)
(** ** The head of a ranking *)

(** X6. For a table with at least one row and [k >= 1], the first row of a
    ranking is a row of the table whose score no row of the table
    exceeds. *)
Theorem first_row_has_the_highest_score (df : DataFrame) (m : metric)
    (k : nat) :
  (1 <= k)%nat ->
  select df m <> [] ->
  exists top,
    hd_error (top_k df m k) = Some top /\
    In top (select df m) /\
    forall row, In row (select df m) -> snd row <= snd top.
Proof.
  intros Hk Hne. unfold top_k, nlargest.
  pose proof (sort_values_desc_perm (select df m)) as P.
  pose proof (sort_values_desc_sorted (select df m)) as S.
  destruct (sort_values_desc (select df m)) as [|top s'] eqn:E.
  - exfalso. apply Hne. apply Permutation_nil. now symmetry.
  - exists top. destruct k as [|k]; [lia|]. simpl. split; [reflexivity|].
    split.
    + eapply Permutation_in; [exact P | now left].
    + intros row Hrow.
      apply (Permutation_in _ (Permutation_sym P)) in Hrow.
      inversion S as [|? ? _ Hall]; subst.
      destruct Hrow as [<-|Hrow]; [apply Qle_refl|].
      rewrite Forall_forall in Hall. exact (Hall row Hrow).
Qed.

Lemma first_row_has_the_highest_score_witness :
  exists top,
    hd_error (top_k table_A_B_C ByDegree 5) = Some top /\
    In top (select table_A_B_C ByDegree) /\
    forall row, In row (select table_A_B_C ByDegree) -> snd row <= snd top.
Proof.
  apply (first_row_has_the_highest_score table_A_B_C ByDegree 5).
  - lia.
  - vm_compute. discriminate.
Defined.
